(** * Universal Unit Converter: the conversion workflow controller of App.js

    A shallow embedding of [src/unit_converter_frontend/src/App.js]: the
    component state, the two submit handlers, the two effects and the label
    formatter, together with the properties the specification states about
    them.

    Conventions of the embedding.
    - A JavaScript string is a [string]; a code unit outside ASCII is some
      byte above 127, which the two regular expressions of [formatUnit]
      treat like any other non-word character.
    - A value that came out of [JSON.parse] (or [undefined]) is a [value].
      A number is carried as the text [String(n)] gives it: the component
      only ever tests a number for truthiness and splices it into a template
      literal.
    - Code that can throw runs in the monad [M]: a state transformer over
      the component state that ends in a result or in an exception.
    - The state updates one synchronous stretch of a handler issues are
      applied together, and the effects whose dependency changed run on the
      state that results (React 18 batching).
    - [dispatch] is what a turn of the event loop does to the cells;
      [turn] is the turn with its renders, and a render that throws
      unmounts the component. *)

From Stdlib Require Import ZArith Ascii String.
From stdpp Require Import gmap strings list pretty.

Open Scope string_scope.

(** ** Label formatting *)

(** [\w] of a regular expression without the [u] flag: [A-Za-z0-9_]. *)
Definition is_word_char (c : ascii) : bool :=
  let n := nat_of_ascii c in
  (((97 <=? n) && (n <=? 122)) || ((65 <=? n) && (n <=? 90))
   || ((48 <=? n) && (n <=? 57)) || (n =? 95))%nat.

(** The character class [[a-z]]. *)
Definition is_lower (c : ascii) : bool :=
  let n := nat_of_ascii c in ((97 <=? n) && (n <=? 122))%nat.

(** [c.toUpperCase()] for a one-character string. Only ever applied to a
    match of [[a-z]]; other ASCII characters are left as they are. *)
Definition toUpperCase (c : ascii) : ascii :=
  if is_lower c then ascii_of_nat (nat_of_ascii c - 32) else c.

(** [replace(/_/g, ' ')]. *)
Fixpoint replace_underscores (s : string) : string :=
  match s with
  | EmptyString => EmptyString
  | String c rest =>
      String (if Ascii.eqb c "_" then " "%char else c) (replace_underscores rest)
  end.

(** Whether the character next to a position is a word character; there is
    none before the start of the string. *)
Definition word_at (c : option ascii) : bool :=
  match c with Some c => is_word_char c | None => false end.

(** [\b]: exactly one of the two neighbours of the position is a word
    character. *)
Definition word_boundary (before after : option ascii) : bool :=
  xorb (word_at before) (word_at after).

(** [replace(/\b([a-z])/g, c => c.toUpperCase())], scanning the subject
    from the position after [before]. The boundary test looks at the
    subject string itself, not at what has been replaced so far. *)
Fixpoint capitalize_from (before : option ascii) (s : string) : string :=
  match s with
  | EmptyString => EmptyString
  | String c rest =>
      String (if word_boundary before (Some c) && is_lower c
              then toUpperCase c else c)
             (capitalize_from (Some c) rest)
  end.

Definition capitalize_words (s : string) : string := capitalize_from None s.

(** [formatUnit(unit)] for a string [unit]; [!unit] holds of the empty
    string only. *)
Definition formatUnit (unit : string) : string :=
  if String.eqb unit "" then ""
  else capitalize_words (replace_underscores unit).

(** Whether a string is free of underscores. *)
Fixpoint no_underscore (s : string) : bool :=
  match s with
  | EmptyString => true
  | String c rest => negb (Ascii.eqb c "_") && no_underscore rest
  end.

(** ** JavaScript values *)

#[local] Set Warnings "-register-all".

(** What [JSON.parse] can return, and [undefined]. [VNum] holds the text
    [String(n)] yields for the number; [VObj] holds the members of the
    object in the order of the JSON text. *)
Inductive jsval : Type :=
| VUndefined
| VNull
| VBool (b : bool)
| VNum (text : string)
| VStr (s : string)
| VArr (items : list jsval)
| VObj (members : list (string * jsval)).

(** What the code can throw. [fetch] rejects with [FetchFailed] when the
    request cannot be made, [res.json()] with [SyntaxError] when the body is
    not JSON. *)
Inductive exn : Type := TypeError | SyntaxError | FetchFailed.

(** ToBoolean. A parsed number is falsy only when it is zero, which prints
    as ["0"] ([-0] too; [JSON.parse] yields no [NaN]). *)
Definition truthy (v : jsval) : bool :=
  match v with
  | VUndefined | VNull => false
  | VBool b => b
  | VNum text => negb (String.eqb text "0")
  | VStr s => negb (String.eqb s "")
  | VArr _ | VObj _ => true
  end.

(** [a || b]. *)
Definition js_or (a b : jsval) : jsval := if truthy a then a else b.

(** The own property [key] of a parsed object: of two members with the same
    name the later one wins. *)
Fixpoint own_property (key : string) (members : list (string * jsval))
  : option jsval :=
  match members with
  | [] => None
  | (k, v) :: rest =>
      match own_property key rest with
      | Some w => Some w
      | None => if String.eqb k key then Some v else None
      end
  end.

(** [v.key] for a name no prototype defines ([detail] and [result] are such
    names): a [TypeError] on [null] and [undefined], the own property of an
    object, [undefined] otherwise. *)
Definition read_property (v : jsval) (key : string) : exn + jsval :=
  match v with
  | VUndefined | VNull => inl TypeError
  | VObj members => inr (default VUndefined (own_property key members))
  | _ => inr VUndefined
  end.

(** ToString, as a template literal applies it. An array joins its elements
    with commas, [null] and [undefined] elements printing as nothing. An
    object prints as ["[object Object]"] unless it has a member named
    [toString]: that member is not callable, and [valueOf] (the member or
    the inherited one) yields no primitive, so the conversion throws. *)
Fixpoint to_string (v : jsval) : exn + string :=
  match v with
  | VUndefined => inr "undefined"
  | VNull => inr "null"
  | VBool b => inr (if b then "true" else "false")
  | VNum text => inr text
  | VStr s => inr s
  | VArr items =>
      let element (x : jsval) : exn + string :=
        match x with
        | VUndefined | VNull => inr ""
        | _ => to_string x
        end in
      (fix join (l : list jsval) : exn + string :=
         match l with
         | [] => inr ""
         | x :: rest =>
             match element x with
             | inl e => inl e
             | inr s =>
                 match rest with
                 | [] => inr s
                 | _ :: _ =>
                     match join rest with
                     | inl e => inl e
                     | inr t => inr (s ++ "," ++ t)
                     end
                 end
             end
         end) items
  | VObj members =>
      match own_property "toString" members with
      | Some _ => inl TypeError
      | None => inr "[object Object]"
      end
  end.

(** [units[i]]. *)
Definition index (units : list string) (i : nat) : jsval :=
  match units !! i with
  | Some u => VStr u
  | None => VUndefined
  end.

(** ** The catalog *)

(** [staticConfig], in the order of the object literal. *)
Definition staticConfig_entries : list (string * list string) :=
  [ ("Length", ["meter"; "kilometer"; "mile"; "inch"; "foot"]);
    ("Weight", ["gram"; "kilogram"; "pound"; "ounce"]);
    ("Temperature", ["celsius"; "fahrenheit"; "kelvin"]);
    ("Speed", ["meter_per_second"; "kilometer_per_hour"; "mile_per_hour"]);
    ("Currency", ["USD"; "EUR"; "GBP"; "JPY"; "INR"]) ].

Definition staticConfig : gmap string (list string) :=
  list_to_map staticConfig_entries.

(** [Object.keys(staticConfig).filter(cat => cat !== 'Currency')]: the
    options of the category selector. *)
Definition category_options : list string :=
  filter (λ cat, cat ≠ "Currency") (staticConfig_entries.*1).

(** [staticConfig[category].map(...)]: the options of both unit selectors. *)
Definition unit_options (cat : string) : list string :=
  default [] (staticConfig !! cat).

(** [staticConfig.Currency.map(...)]: the options of both currency
    selectors. *)
Definition currency_options : list string := unit_options "Currency".

(** ** The component state *)

(** An entry of the history list. *)
Module Entry.

Record t : Type := mk {
  category : string;
  value : string;
  fromUnit : jsval;
  toUnit : jsval;
  result : string;
  timestamp : Z
}.

End Entry.

(** The [useState] cells of [App]. [fromUnit], [toUnit] and [error] are
    written with values read out of the catalog or out of a response, so
    they hold a [jsval]; the other cells only ever receive strings and
    booleans. *)
Record State : Type := mkState {
  category : string;
  value : string;
  fromUnit : jsval;
  toUnit : jsval;
  result : string;
  error : jsval;
  isLoading : bool;
  enableCurrency : bool;
  currencyFrom : string;
  currencyTo : string;
  currencyValue : string;
  currencyResult : string;
  history : list Entry.t
}.

(** The state setters: each replaces one cell. *)
Definition setCategory (x : string) (s : State) : State :=
  mkState
    x (value s) (fromUnit s) (toUnit s) (result s) (error s)
    (isLoading s) (enableCurrency s) (currencyFrom s) (currencyTo s)
    (currencyValue s) (currencyResult s) (history s).

Definition setValue (x : string) (s : State) : State :=
  mkState
    (category s) x (fromUnit s) (toUnit s) (result s) (error s)
    (isLoading s) (enableCurrency s) (currencyFrom s) (currencyTo s)
    (currencyValue s) (currencyResult s) (history s).

Definition setFromUnit (x : jsval) (s : State) : State :=
  mkState
    (category s) (value s) x (toUnit s) (result s) (error s)
    (isLoading s) (enableCurrency s) (currencyFrom s) (currencyTo s)
    (currencyValue s) (currencyResult s) (history s).

Definition setToUnit (x : jsval) (s : State) : State :=
  mkState
    (category s) (value s) (fromUnit s) x (result s) (error s)
    (isLoading s) (enableCurrency s) (currencyFrom s) (currencyTo s)
    (currencyValue s) (currencyResult s) (history s).

Definition setResult (x : string) (s : State) : State :=
  mkState
    (category s) (value s) (fromUnit s) (toUnit s) x (error s)
    (isLoading s) (enableCurrency s) (currencyFrom s) (currencyTo s)
    (currencyValue s) (currencyResult s) (history s).

Definition setError (x : jsval) (s : State) : State :=
  mkState
    (category s) (value s) (fromUnit s) (toUnit s) (result s) x
    (isLoading s) (enableCurrency s) (currencyFrom s) (currencyTo s)
    (currencyValue s) (currencyResult s) (history s).

Definition setIsLoading (x : bool) (s : State) : State :=
  mkState
    (category s) (value s) (fromUnit s) (toUnit s) (result s) (error s)
    x (enableCurrency s) (currencyFrom s) (currencyTo s)
    (currencyValue s) (currencyResult s) (history s).

Definition setEnableCurrency (x : bool) (s : State) : State :=
  mkState
    (category s) (value s) (fromUnit s) (toUnit s) (result s) (error s)
    (isLoading s) x (currencyFrom s) (currencyTo s) (currencyValue s)
    (currencyResult s) (history s).

Definition setCurrencyFrom (x : string) (s : State) : State :=
  mkState
    (category s) (value s) (fromUnit s) (toUnit s) (result s) (error s)
    (isLoading s) (enableCurrency s) x (currencyTo s) (currencyValue s)
    (currencyResult s) (history s).

Definition setCurrencyTo (x : string) (s : State) : State :=
  mkState
    (category s) (value s) (fromUnit s) (toUnit s) (result s) (error s)
    (isLoading s) (enableCurrency s) (currencyFrom s) x
    (currencyValue s) (currencyResult s) (history s).

Definition setCurrencyValue (x : string) (s : State) : State :=
  mkState
    (category s) (value s) (fromUnit s) (toUnit s) (result s) (error s)
    (isLoading s) (enableCurrency s) (currencyFrom s) (currencyTo s) x
    (currencyResult s) (history s).

Definition setCurrencyResult (x : string) (s : State) : State :=
  mkState
    (category s) (value s) (fromUnit s) (toUnit s) (result s) (error s)
    (isLoading s) (enableCurrency s) (currencyFrom s) (currencyTo s)
    (currencyValue s) x (history s).

Definition setHistory (x : list Entry.t) (s : State) : State :=
  mkState
    (category s) (value s) (fromUnit s) (toUnit s) (result s) (error s)
    (isLoading s) (enableCurrency s) (currencyFrom s) (currencyTo s)
    (currencyValue s) (currencyResult s) x.

(** The cells before the first render. *)
Definition initial_state : State :=
  mkState "Length" "" (VStr "meter") (VStr "kilometer") "" (VStr "") false
          false "USD" "EUR" "" "" [].

(** ** Code that can throw *)

(** A computation over the cells that ends in a result or in an exception;
    the updates made before a throw stay made. *)
Definition M (A : Type) : Type := State → (exn + A) * State.

#[global] Instance M_ret : MRet M := λ A a s, (inr a, s).

#[global] Instance M_bind : MBind M := λ A B k m s,
  match m s with
  | (inl e, s') => (inl e, s')
  | (inr a, s') => k a s'
  end.

Definition throw {A : Type} (e : exn) : M A := λ s, (inl e, s).

Definition lift {A : Type} (r : exn + A) : M A := λ s, (r, s).

(** A call of a state setter. *)
Definition update (f : State → State) : M unit := λ s, (inr tt, f s).

(** [try { body } catch (err) { handler } finally { final }]. *)
Definition try_catch_finally
    (body : M unit) (handler : exn → M unit) (final : M unit) : M unit :=
  λ s,
    match body s with
    | (inr _, s1) => final s1
    | (inl e, s1) =>
        match handler e s1 with
        | (inr _, s2) => final s2
        | (inl e', s2) =>
            match final s2 with
            | (inr _, s3) => (inl e', s3)
            | (inl e'', s3) => (inl e'', s3)
            end
        end
    end.

(** ** The endpoints, as the handlers see them *)

Inductive Body : Type := NotJson | Json (data : jsval).

(** A response: [res.ok] and what [res.json()] will find. *)
Record Response : Type := mkResponse { ok : bool; content : Body }.

(** How the promise [fetch] returned settles. *)
Inductive Settled : Type := Rejected | Resolved (res : Response).

Definition await_fetch (o : Settled) : M Response :=
  match o with
  | Rejected => throw FetchFailed
  | Resolved res => mret res
  end.

Definition res_json (res : Response) : M jsval :=
  match content res with
  | NotJson => throw SyntaxError
  | Json data => mret data
  end.

(** ** The history list *)

(** The updater handed to [setHistory]: the new entry, then
    [hist.slice(0, 9)]. *)
Definition record (entry : Entry.t) (hist : list Entry.t) : list Entry.t :=
  entry :: take 9 hist.

Definition nonempty (s : string) : bool := negb (String.eqb s "").

(** ** The handlers

    A handler is created by a render and sees the cells of that render; the
    argument [r] is that render. An [async] handler runs up to its first
    [await] when the form is submitted, and from there when the promise
    settles. *)

(** [handleConvert] up to [await fetch(...)]. *)
Definition handleConvert_submit : M unit :=
  update (setError (VStr ""));;
  update (setResult "");;
  update (setIsLoading true).

(** [handleConvert] from the point where [fetch] settles as [o]. *)
Definition handleConvert_settled (r : State) (o : Settled) : M unit :=
  try_catch_finally
    (res ← await_fetch o;
     data ← res_json res;
     if negb (ok res) then
       detail ← lift (read_property data "detail");
       update (setError (js_or detail (VStr "Conversion failed.")));;
       update (setResult "")
     else
       number ← lift (read_property data "result");
       shown ← lift (to_string number);
       unit ← lift (to_string (toUnit r));
       update (setResult (shown ++ " " ++ unit)))
    (λ _, update (setError (VStr "Could not reach backend.")))
    (update (setIsLoading false)).

(** [handleCurrencyConvert] up to [await fetch(...)]. *)
Definition handleCurrencyConvert_submit : M unit :=
  update (setCurrencyResult "");;
  update (setError (VStr ""));;
  update (setIsLoading true).

(** [handleCurrencyConvert] from the point where [fetch] settles as [o]. *)
Definition handleCurrencyConvert_settled (r : State) (o : Settled) : M unit :=
  try_catch_finally
    (res ← await_fetch o;
     data ← res_json res;
     if negb (ok res) then
       detail ← lift (read_property data "detail");
       update (setError (js_or detail (VStr "Currency conversion failed.")));;
       update (setCurrencyResult "")
     else
       number ← lift (read_property data "result");
       shown ← lift (to_string number);
       update (setCurrencyResult (shown ++ " " ++ currencyTo r)))
    (λ _, update (setError (VStr "Could not reach backend for currency.")))
    (update (setIsLoading false)).

(** ** The effects *)

(** The effect on [category]: the unit selection of the category of the
    render. Of a category outside the catalog, [units] is [undefined] and
    [units[0]] throws. *)
Definition category_effect (r : State) : M unit :=
  match staticConfig !! category r with
  | None => throw TypeError
  | Some units =>
      update (setFromUnit (index units 0));;
      update (setToUnit (js_or (index units 1) (index units 0)))
  end.

(** The entry the effect on [result] builds from the render, [now] being
    what [Date.now()] returns. *)
Definition entry_of (now : Z) (r : State) : Entry.t :=
  Entry.mk (category r) (value r) (fromUnit r) (toUnit r) (result r) now.

(** The effect on [result]. *)
Definition history_effect (now : Z) (r : State) : M unit :=
  if nonempty (result r) && nonempty (value r)
     && truthy (fromUnit r) && truthy (toUnit r)
     && negb (truthy (error r)) && negb (isLoading r)
     && negb (String.eqb (category r) "Currency")
  then update (λ s, setHistory (record (entry_of now r) (history s)) s)
  else mret tt.

(** The effects that run after a render [r] that followed the render
    [before]: each effect runs when its dependency is not the same as
    before. The effects write neither [category] nor [result], so the render
    they cause runs no effect. *)
Definition run_effects (now : Z) (before r : State) : M unit :=
  (if String.eqb (category before) (category r) then mret tt
   else category_effect r);;
  (if String.eqb (result before) (result r) then mret tt
   else history_effect now r).

(** The first render runs both effects. *)
Definition mount_effects (now : Z) : M unit :=
  category_effect initial_state;; history_effect now initial_state.

(** ** The page *)

(** The cells, and the submitted handlers whose [fetch] has not settled
    yet, each with the render it was created by. *)
Record Page : Type := mkPage {
  ui : State;
  convertCalls : list State;
  currencyCalls : list State
}.

(** [disabled] of the two submit buttons. *)
Definition convert_disabled (r : State) : bool :=
  isLoading r || negb (nonempty (value r)).

Definition currency_disabled (r : State) : bool :=
  isLoading r || negb (nonempty (currencyValue r)).

(** What can happen to the page: the user acts on a control, or a promise
    settles. [ConvertSettled i o]: the [i]-th pending [fetch] of
    [handleConvert] settles as [o]. *)
Inductive Event : Type :=
| SelectCategory (cat : string)
| EditValue (v : string)
| SelectFromUnit (u : string)
| SelectToUnit (u : string)
| SubmitConvert
| ToggleCurrency (checked : bool)
| EditCurrencyValue (v : string)
| SelectCurrencyFrom (cur : string)
| SelectCurrencyTo (cur : string)
| SubmitCurrency
| ConvertSettled (i : nat) (o : Settled)
| CurrencySettled (i : nat) (o : Settled).

(** A computation over the cells, run on the cells of a page. *)
Definition in_ui (m : M unit) (p : Page) : (exn + unit) * Page :=
  let '(res, s) := m (ui p) in
  (res, mkPage s (convertCalls p) (currencyCalls p)).

(** The handler of an event. A selector offers its options only, a
    disabled button submits nothing, and the currency form exists only
    while [enableCurrency] holds; an event the page cannot produce changes
    nothing. The model lets through more than the page does: the two
    number inputs yield the empty string for text that is no number, and
    the browser refuses to submit a form whose number is negative or no
    multiple of the step ([required], [min], the default [step]), where
    [EditValue] stores any string and a submit is held back by the
    [disabled] of its button only. What is proved of every event, or of
    every page the event loop can reach, therefore holds of the page; the
    sample pages submit whole numbers that are not negative, which the
    browser lets through. *)
Definition handle (e : Event) (p : Page) : (exn + unit) * Page :=
  let r := ui p in
  match e with
  | SelectCategory cat =>
      if bool_decide (cat ∈ category_options)
      then in_ui (update (setCategory cat)) p else (inr tt, p)
  | EditValue v => in_ui (update (setValue v)) p
  | SelectFromUnit u =>
      if bool_decide (u ∈ unit_options (category r))
      then in_ui (update (setFromUnit (VStr u))) p else (inr tt, p)
  | SelectToUnit u =>
      if bool_decide (u ∈ unit_options (category r))
      then in_ui (update (setToUnit (VStr u))) p else (inr tt, p)
  | SubmitConvert =>
      if convert_disabled r then (inr tt, p)
      else in_ui handleConvert_submit
             (mkPage r (convertCalls p ++ [r]) (currencyCalls p))
  | ToggleCurrency checked => in_ui (update (setEnableCurrency checked)) p
  | EditCurrencyValue v =>
      if enableCurrency r
      then in_ui (update (setCurrencyValue v)) p else (inr tt, p)
  | SelectCurrencyFrom cur =>
      if enableCurrency r && bool_decide (cur ∈ currency_options)
      then in_ui (update (setCurrencyFrom cur)) p else (inr tt, p)
  | SelectCurrencyTo cur =>
      if enableCurrency r && bool_decide (cur ∈ currency_options)
      then in_ui (update (setCurrencyTo cur)) p else (inr tt, p)
  | SubmitCurrency =>
      if negb (enableCurrency r) || currency_disabled r then (inr tt, p)
      else in_ui handleCurrencyConvert_submit
             (mkPage r (convertCalls p) (currencyCalls p ++ [r]))
  | ConvertSettled i o =>
      match convertCalls p !! i with
      | None => (inr tt, p)
      | Some call =>
          in_ui (handleConvert_settled call o)
            (mkPage r (delete i (convertCalls p)) (currencyCalls p))
      end
  | CurrencySettled i o =>
      match currencyCalls p !! i with
      | None => (inr tt, p)
      | Some call =>
          in_ui (handleCurrencyConvert_settled call o)
            (mkPage r (convertCalls p) (delete i (currencyCalls p)))
      end
  end.

(** What one turn of the event loop does to the cells: the handler, then
    the effects on the cells the handler left. An exception that escapes
    the handler does not undo its updates. The renders in between are not
    part of [dispatch]: [render] says what rendering given cells throws,
    and [turn] is the whole turn, renders included. *)
Definition dispatch (now : Z) (e : Event) (p : Page) : (exn + unit) * Page :=
  let '(res, p1) := handle e p in
  let '(res', p2) := in_ui (run_effects now (ui p) (ui p1)) p1 in
  (match res with inl x => inl x | inr _ => res' end, p2).

Definition step (now : Z) (e : Event) (p : Page) : Page :=
  (dispatch now e p).2.

(** The page after the first render and its effects. *)
Definition mounted (now : Z) : Page :=
  (in_ui (mount_effects now) (mkPage initial_state [] [])).2.

(** The pages the event loop can reach. *)
Inductive reachable : Page → Prop :=
| reach_mounted now : reachable (mounted now)
| reach_step now e p : reachable p → reachable (step now e p).

(** [isLoading] holds exactly while one request, of either form, is
    pending. *)
Definition one_request_at_a_time (p : Page) : Prop :=
  (length (convertCalls p) + length (currencyCalls p)
   = if isLoading (ui p) then 1 else 0)%nat.

(** The page after a list of timed events. *)
Definition run (evs : list (Z * Event)) (p : Page) : Page :=
  foldl (λ q '(now, e), step now e q) p evs.

(** Recording a list of entries, the first of the list first. *)
Definition record_all (entries : list Entry.t) (hist : list Entry.t)
  : list Entry.t :=
  foldl (λ acc entry, record entry acc) hist entries.

(** ** The two workflows *)

(** The events of the currency panel, and those of the converter form. *)
Definition is_currency_event (e : Event) : bool :=
  match e with
  | ToggleCurrency _ | EditCurrencyValue _ | SelectCurrencyFrom _
  | SelectCurrencyTo _ | SubmitCurrency | CurrencySettled _ _ => true
  | _ => false
  end.

Definition is_convert_event (e : Event) : bool := negb (is_currency_event e).

(** The request lifecycle the two controllers have in common, written by
    cases on how the request ends. Its parameters are what tells the two
    apart: the message used when a failure names no detail, the message
    used when no usable response arrives, the cell [store] writes the
    outcome to, and the unit appended to the number. *)
Definition lifecycle_submit (store : string → State → State) (s : State)
  : State :=
  setIsLoading true (store "" (setError (VStr "") s)).

Definition lifecycle_settled (fallback transport : string)
    (store : string → State → State) (unit : string)
    (o : Settled) (s : State) : State :=
  let unusable := setError (VStr transport) s in
  setIsLoading false
    match o with
    | Rejected => unusable
    | Resolved res =>
        match content res with
        | NotJson => unusable
        | Json data =>
            if ok res then
              match read_property data "result" with
              | inl _ => unusable
              | inr number =>
                  match to_string number with
                  | inl _ => unusable
                  | inr shown => store (shown ++ " " ++ unit) s
                  end
              end
            else
              match read_property data "detail" with
              | inl _ => unusable
              | inr detail => store "" (setError (js_or detail (VStr fallback)) s)
              end
        end
    end.

(** The requests that end in the [error] cell: no response, a body that is
    not JSON, or a status outside 200-299. *)
Definition failed (o : Settled) : bool :=
  match o with
  | Rejected => true
  | Resolved res =>
      match content res with NotJson => true | Json _ => negb (ok res) end
  end.

(** ** Sample pages *)

(** A failure that names its detail, and one that does not. *)
Definition bad_unit : Settled :=
  Resolved (mkResponse false (Json (VObj [("detail", VStr "bad unit")]))).

Definition no_detail : Settled :=
  Resolved (mkResponse false (Json (VObj []))).

(** A gateway answering with a status outside 200-299 and an HTML page. *)
Definition bad_gateway : Settled := Resolved (mkResponse false NotJson).

Definition converted (number : string) : Settled :=
  Resolved (mkResponse true (Json (VObj [("result", VNum number)]))).

(** Both forms filled in, the currency panel switched on. *)
Definition filled_page : Page :=
  run [(1, EditValue "3600"); (2, ToggleCurrency true);
       (3, EditCurrencyValue "5")]%Z (mounted 0).

(** The converter form submitted, its request pending. *)
Definition convert_pending_page : Page := step 4 SubmitConvert filled_page.

(** The currency form submitted instead. *)
Definition currency_pending_page : Page := step 4 SubmitCurrency filled_page.

(** The conversion refused by the service. *)
Definition convert_failed_page : Page :=
  step 5 (ConvertSettled 0 bad_unit) convert_pending_page.

(** The conversion done, then the currency form submitted. *)
Definition converted_then_currency_page : Page :=
  run [(5, ConvertSettled 0 (converted "3.6")); (6, SubmitCurrency)]%Z
      convert_pending_page.

(** Eleven conversions to record, told apart by their time. *)
Definition sample_entry (now : Z) : Entry.t :=
  Entry.mk "Length" "1" (VStr "meter") (VStr "kilometer") "0.001 kilometer" now.

Definition sample_entries : list Entry.t :=
  sample_entry <$> [2; 3; 4; 5; 6; 7; 8; 9; 10; 11]%Z.

(** The cells of the converter form, those of the currency panel, and the
    two cells both handlers write. *)
Definition convert_cells (s : State) :=
  (category s, value s, fromUnit s, toUnit s, result s, history s).

Definition currency_cells (s : State) :=
  (enableCurrency s, currencyFrom s, currencyTo s, currencyValue s,
   currencyResult s).

Definition shared_cells (s : State) := (error s, isLoading s).

(** The cells the effects do not write: they write [fromUnit], [toUnit] and
    [history] only. *)
Definition kept_by_effects (s : State) :=
  (shared_cells s, currency_cells s, category s, value s, result s).

(** Units chosen by hand, away from the defaults of the category. *)
Definition hand_picked_page : Page :=
  run [(1, SelectFromUnit "mile"); (2, SelectToUnit "inch")]%Z (mounted 0).

(** ** What the page shows and offers *)

(** Whether a value is a string one of the [options] of a selector. *)
Definition offered (options : list string) (v : jsval) : bool :=
  match v with
  | VStr u => bool_decide (u ∈ options)
  | _ => false
  end.

(** Whether every selector of the page shows one of its options: the
    category one of the categories offered, both units units of that
    category, both currencies currency codes. *)
Definition selection_valid (s : State) : bool :=
  bool_decide (category s ∈ category_options)
  && offered (unit_options (category s)) (fromUnit s)
  && offered (unit_options (category s)) (toUnit s)
  && bool_decide (currencyFrom s ∈ currency_options)
  && bool_decide (currencyTo s ∈ currency_options).

(** The [key] of each item of the history list:
    [item.timestamp + String(idx)], a number added to a string. The
    timestamp is an integer ([Date.now()]), printed in decimal. *)
Definition history_keys (hist : list Entry.t) : list string :=
  imap (λ idx item, pretty (Entry.timestamp item) +:+ pretty idx) hist.

(** Whether no lower-case letter of a string stands at the start of a
    word, the string being read from the position after [before]. *)
Fixpoint capitalized_from (before : option ascii) (s : string) : bool :=
  match s with
  | EmptyString => true
  | String c rest =>
      negb (word_boundary before (Some c) && is_lower c)
      && capitalized_from (Some c) rest
  end.

(** A label as [formatUnit] writes it: no underscore, and no word that
    starts with a lower-case letter. *)
Definition is_formatted (s : string) : bool :=
  no_underscore s && capitalized_from None s.

(** The cells the selectors write. *)
Definition selection_cells (s : State) :=
  (category s, fromUnit s, toUnit s, currencyFrom s, currencyTo s).

(** While a request is pending, the outcome of the request before it is
    not on the page any more. *)
Definition pending_clear (p : Page) : Prop :=
  (convertCalls p ≠ [] → result (ui p) = "" ∧ error (ui p) = VStr "")
  ∧ (currencyCalls p ≠ [] →
     currencyResult (ui p) = "" ∧ error (ui p) = VStr "").

(** The target unit changed while the request of the converter form is
    pending. *)
Definition unit_changed_page : Page :=
  step 5 (SelectToUnit "mile") convert_pending_page.

(** A success status with a body without the result, and one whose result
    cannot be printed. *)
Definition empty_success : Settled :=
  Resolved (mkResponse true (Json (VObj []))).

Definition unprintable_success : Settled :=
  Resolved (mkResponse true
              (Json (VObj [("result", VObj [("toString", VNum "1")])]))).

(** The events that need the currency form on the page. *)
Definition needs_currency_form (e : Event) : bool :=
  match e with
  | EditCurrencyValue _ | SelectCurrencyFrom _ | SelectCurrencyTo _
  | SubmitCurrency => true
  | _ => false
  end.

(** What held of the render of a pending handler of each form when it was
    submitted. *)
Definition convert_submittable (r : State) : bool :=
  nonempty (value r) && negb (isLoading r).

Definition currency_submittable (r : State) : bool :=
  enableCurrency r && nonempty (currencyValue r) && negb (isLoading r).

(** Twelve entries whose keys are not distinct: the entry at index 1 is
    stamped 11, the one at index 11 is stamped 1. *)
Definition colliding_history : list Entry.t :=
  sample_entry <$> [0; 11; 0; 0; 0; 0; 0; 0; 0; 0; 0; 1]%Z.

(** Whether an entry of the history holds a value and a result that are
    not empty, a category the selector offers and two units of that
    category. *)
Definition entry_valid (entry : Entry.t) : bool :=
  nonempty (Entry.value entry) && nonempty (Entry.result entry)
  && bool_decide (Entry.category entry ∈ category_options)
  && offered (unit_options (Entry.category entry)) (Entry.fromUnit entry)
  && offered (unit_options (Entry.category entry)) (Entry.toUnit entry).

(** The entry the conversion of the sample pages leaves in the history. *)
Definition sample_recorded : Entry.t :=
  Entry.mk "Length" "3600" (VStr "meter") (VStr "kilometer") "3.6 kilometer" 5.

(** ** The render *)

(** Whether React takes a value as a child: a string, a number, the values
    it renders as nothing, and an array of such values; it throws on any
    other object. *)
Fixpoint valid_child (v : jsval) : bool :=
  match v with
  | VUndefined | VNull | VBool _ | VNum _ | VStr _ => true
  | VArr items =>
      (fix all (l : list jsval) : bool :=
         match l with
         | [] => true
         | x :: rest => valid_child x && all rest
         end) items
  | VObj _ => false
  end.

(** [formatUnit(unit)] for any value, as the history list calls it on the
    units of an item: a falsy value gives the empty label, and of the other
    values only a string has a [replace] to call. *)
Definition formatUnit_of (unit : jsval) : exn + string :=
  if negb (truthy unit) then inr ""
  else match unit with
       | VStr u => inr (formatUnit u)
       | _ => inl TypeError
       end.

(** Whether a conversion to a string, or a call of [formatUnit], ends
    without an exception. *)
Definition prints {A : Type} (r : exn + A) : bool :=
  match r with inr _ => true | inl _ => false end.

(** Why a render fails: [App] throws, or React refuses a child. *)
Inductive crash : Type := Thrown (e : exn) | InvalidChild.

(** What rendering the cells throws, if anything. [App] itself throws when
    [staticConfig[category]] is [undefined], whose [map] the unit selectors
    call, and when [formatUnit] throws on a unit of a history item. React
    then throws on the error message when it is not a valid child
    ([{error && <div className="error">{error}</div>}]: a falsy message is
    itself the child), and on the [value] of a unit selector when it cannot
    be converted to a string. The other children and attributes are
    strings and booleans. *)
Definition render (s : State) : crash + unit :=
  match staticConfig !! category s with
  | None => inl (Thrown TypeError)
  | Some _ =>
      if negb (forallb (λ item, prints (formatUnit_of (Entry.fromUnit item))
                                && prints (formatUnit_of (Entry.toUnit item)))
                 (history s))
      then inl (Thrown TypeError)
      else if negb (valid_child (error s)) then inl InvalidChild
      else if negb (prints (to_string (fromUnit s))
                    && prints (to_string (toUnit s)))
      then inl (Thrown TypeError)
      else inr tt
  end.

(** How a turn of the event loop ends for the page: it is still there, or
    the component was unmounted. *)
Inductive Outcome : Type := Live (p : Page) | Unmounted (why : crash).

(** One turn of the event loop, for a page that is on the screen: the
    handler, the render of the cells it left, the effects, the render of
    the cells they left. No error boundary encloses [App], so a render or
    an effect that throws unmounts it. (An exception that escaped a handler
    would be reported and leave the page mounted.) *)
Definition turn (now : Z) (e : Event) (p : Page) : Outcome :=
  let p1 := (handle e p).2 in
  match render (ui p1) with
  | inl why => Unmounted why
  | inr _ =>
      match run_effects now (ui p) (ui p1) (ui p1) with
      | (inl x, _) => Unmounted (Thrown x)
      | (inr _, s2) =>
          match render s2 with
          | inl why => Unmounted why
          | inr _ => Live (mkPage s2 (convertCalls p1) (currencyCalls p1))
          end
      end
  end.

(** The message a request that failed (see [failed]) leaves in the error
    cell, [fallback] and [transport] being the two messages of its
    handler. *)
Definition failure_message (fallback transport : string) (o : Settled)
  : jsval :=
  match o with
  | Rejected => VStr transport
  | Resolved res =>
      match content res with
      | NotJson => VStr transport
      | Json data =>
          match read_property data "detail" with
          | inl _ => VStr transport
          | inr detail => js_or detail (VStr fallback)
          end
      end
  end.

(** A failure whose detail is a list of objects, as a validation error of
    the service has it. *)
Definition invalid_input : Settled :=
  Resolved (mkResponse false
    (Json (VObj [("detail", VArr [VObj [("msg", VStr "field required")]])]))).

(** Whether both unit cells hold strings. *)
Definition units_are_strings (s : State) : bool :=
  match fromUnit s, toUnit s with
  | VStr _, VStr _ => true
  | _, _ => false
  end.

(** * Properties *)

(** ** Label formatting *)

Example formatUnit_speed :
  formatUnit "meter_per_second" = "Meter Per Second".
Proof. reflexivity. Qed.

Example formatUnit_mixed :
  formatUnit "_a1b-c_USD" = " A1b-C USD".
Proof. reflexivity. Qed.

Example formatUnit_empty : formatUnit "" = "".
Proof. reflexivity. Qed.

Ltac each_ascii c :=
  destruct c as [[] [] [] [] [] [] [] []]; try reflexivity; try discriminate.

Lemma toUpperCase_word c : is_word_char (toUpperCase c) = is_word_char c.
Proof. each_ascii c. Qed.

Lemma toUpperCase_not_lower c : is_lower c = true → is_lower (toUpperCase c) = false.
Proof. each_ascii c. Qed.

Lemma toUpperCase_not_underscore c :
  Ascii.eqb c "_" = false → Ascii.eqb (toUpperCase c) "_" = false.
Proof. each_ascii c. Qed.

(** Capitalizing looks at the character before only to see whether it is a
    word character, which capitalizing does not change: a second pass finds
    nothing left to do. *)
Lemma capitalize_char_twice (w : bool) (c : ascii) :
  let c' := if xorb w (is_word_char c) && is_lower c then toUpperCase c else c in
  (if xorb w (is_word_char c') && is_lower c' then toUpperCase c' else c') = c'
  ∧ is_word_char c' = is_word_char c.
Proof. destruct w; each_ascii c; split; reflexivity. Qed.

Lemma capitalize_from_twice s : ∀ before before',
  word_at before' = word_at before →
  capitalize_from before' (capitalize_from before s) = capitalize_from before s.
Proof.
  induction s as [|c rest IH]; intros before before' Hw; simpl; [done|].
  unfold word_boundary. rewrite Hw. simpl word_at.
  destruct (capitalize_char_twice (word_at before) c) as [Hsame Hword].
  rewrite Hsame. f_equal. apply IH. simpl. exact Hword.
Qed.

Lemma replace_underscores_clean s : no_underscore (replace_underscores s) = true.
Proof.
  induction s as [|c rest IH]; simpl; [done|].
  rewrite IH, andb_true_r. by destruct (Ascii.eqb c "_") eqn:E; [|rewrite E].
Qed.

Lemma replace_underscores_id s :
  no_underscore s = true → replace_underscores s = s.
Proof.
  induction s as [|c rest IH]; simpl; [done|].
  intros [Hc Hr]%andb_prop. apply negb_true_iff in Hc.
  by rewrite Hc, IH.
Qed.

Lemma capitalize_from_clean s : ∀ before,
  no_underscore s = true → no_underscore (capitalize_from before s) = true.
Proof.
  induction s as [|c rest IH]; intros before; simpl; [done|].
  intros [Hc Hr]%andb_prop. apply negb_true_iff in Hc.
  rewrite IH by done. rewrite andb_true_r.
  destruct (word_boundary before (Some c) && is_lower c).
  - by rewrite toUpperCase_not_underscore.
  - by rewrite Hc.
Qed.

(** C9. [formatUnit] is a function of the unit identifier alone, and
    formatting a label that is already formatted gives the same label:
    for every string [u], [formatUnit (formatUnit u) = formatUnit u]. *)
Theorem formatUnit_idempotent (u : string) :
  formatUnit (formatUnit u) = formatUnit u.
Proof.
  unfold formatUnit.
  destruct (String.eqb u "") eqn:Hu; [reflexivity|].
  set (s := replace_underscores u).
  destruct (String.eqb (capitalize_words s) "") eqn:He.
  - apply String.eqb_eq in He. by rewrite He.
  - unfold capitalize_words.
    rewrite replace_underscores_id
      by (apply capitalize_from_clean, replace_underscores_clean).
    by apply capitalize_from_twice.
Qed.

(** ** The history list *)

Lemma record_all_take (entries hist : list Entry.t) :
  record_all entries hist = take 10 (reverse entries ++ hist)
  ∨ entries = [] ∧ record_all entries hist = hist.
Proof.
  revert hist. induction entries as [|e es IH]; intros hist; [by right|].
  left. unfold record_all in *. simpl.
  destruct (IH (record e hist)) as [->|[-> ->]].
  - rewrite reverse_cons, <- app_assoc. simpl.
    rewrite !take_app. f_equal.
    unfold record. change (e :: take 9 hist) with (take 10 (e :: hist)).
    rewrite take_take. f_equal. lia.
  - reflexivity.
Qed.

Lemma record_all_length (entries : list Entry.t) :
  (length (record_all entries []) ≤ 10)%nat.
Proof.
  destruct (record_all_take entries []) as [->|[_ ->]].
  - rewrite length_take. lia.
  - simpl. lia.
Qed.

(** C2. Recording prepends the entry and keeps the first ten. Hence, from
    any list, recording eleven distinct entries leaves exactly ten, the most
    recent first, without the oldest of the eleven; and a list grown from
    the empty one never has more than ten entries. *)
Theorem history_keeps_last_ten
    (hist : list Entry.t) (oldest : Entry.t) (newer : list Entry.t)
    (Hcount : length (oldest :: newer) = 11)
    (Hdistinct : NoDup (oldest :: newer)) :
  (∀ entry h, record entry h = take 10 (entry :: h))
  ∧ record_all (oldest :: newer) hist = reverse newer
  ∧ length (record_all (oldest :: newer) hist) = 10
  ∧ (oldest ∉ record_all (oldest :: newer) hist)
  ∧ (∀ entries, (length (record_all entries []) ≤ 10)%nat).
Proof.
  assert (Hlen : length newer = 10) by (simpl in Hcount; lia).
  assert (Hall : record_all (oldest :: newer) hist = reverse newer).
  { destruct (record_all_take (oldest :: newer) hist) as [->|[? _]]; [|done].
    rewrite reverse_cons, <- app_assoc, take_app_le
      by (rewrite length_reverse; lia).
    apply take_ge. rewrite length_reverse. lia. }
  split; [reflexivity|]. rewrite Hall.
  split; [reflexivity|]. split; [by rewrite length_reverse|].
  split; [|apply record_all_length].
  rewrite elem_of_reverse. by apply NoDup_cons in Hdistinct as [? _].
Qed.

Lemma sample_entries_distinct : NoDup (sample_entry 1 :: sample_entries).
Proof.
  change (NoDup (sample_entry <$> [1; 2; 3; 4; 5; 6; 7; 8; 9; 10; 11]%Z)).
  apply NoDup_fmap_2; [by intros x y [= ->]|].
  compute_done.
Qed.

Lemma history_keeps_last_ten_witness :
  record_all (sample_entry 1 :: sample_entries) [sample_entry 0]
  = reverse sample_entries
  ∧ (sample_entry 1 ∉ record_all (sample_entry 1 :: sample_entries) [sample_entry 0]).
Proof.
  destruct (history_keeps_last_ten [sample_entry 0] (sample_entry 1)
              sample_entries eq_refl sample_entries_distinct)
    as (_ & Hall & _ & Habsent & _).
  split; [exact Hall | exact Habsent].
Defined.

(** ** The unit selection *)

Lemma staticConfig_inv (C : string) (units : list string) :
  staticConfig !! C = Some units → (C, units) ∈ staticConfig_entries.
Proof. apply elem_of_list_to_map_2. Qed.

Ltac each_category H :=
  apply staticConfig_inv in H; unfold staticConfig_entries in H;
  repeat (apply elem_of_cons in H as [[= -> ->]|H]);
  [ .. | by apply elem_of_nil in H ].

(** C1. For every category of the catalog, the effect on [category] sets
    [fromUnit] to the first unit of the category and [toUnit] to the second
    one when the list has more than one unit, else to the first; and every
    change of category runs it, whatever units were selected before. *)
Theorem category_change_resets_units (C : string) (units : list string)
    (Hcat : staticConfig !! C = Some units) :
  let first := index units 0 in
  let second :=
    if bool_decide (1 < length units)%nat then index units 1 else index units 0 in
  (∀ r s, category r = C →
     category_effect r s = (inr tt, setToUnit second (setFromUnit first s)))
  ∧ (∀ now p, C ∈ category_options → category (ui p) ≠ C →
       dispatch now (SelectCategory C) p
       = (inr tt,
          mkPage (setToUnit second (setFromUnit first (setCategory C (ui p))))
                 (convertCalls p) (currencyCalls p))).
Proof.
  intros first second.
  assert (Heff : ∀ r s, category r = C →
    category_effect r s = (inr tt, setToUnit second (setFromUnit first s))).
  { intros r s Hr. unfold category_effect. rewrite Hr, Hcat.
    subst first second. each_category Hcat; reflexivity. }
  split; [exact Heff|].
  intros now [s cc uc] Hopt Hne. simpl in Hne.
  unfold dispatch, handle. rewrite bool_decide_eq_true_2 by done.
  unfold in_ui, update, run_effects. simpl.
  rewrite (proj2 (String.eqb_neq _ _) Hne), String.eqb_refl.
  unfold mbind, M_bind. erewrite Heff by reflexivity. reflexivity.
Qed.

Lemma category_change_resets_units_witness :
  staticConfig !! "Speed"
  = Some ["meter_per_second"; "kilometer_per_hour"; "mile_per_hour"]
  ∧ fromUnit (ui hand_picked_page) = VStr "mile"
  ∧ toUnit (ui hand_picked_page) = VStr "inch"
  ∧ dispatch 3 (SelectCategory "Speed") hand_picked_page
    = (inr tt,
       mkPage (setToUnit (VStr "kilometer_per_hour")
                 (setFromUnit (VStr "meter_per_second")
                    (setCategory "Speed" (ui hand_picked_page))))
              [] []).
Proof.
  split; [reflexivity|]. split; [reflexivity|]. split; [reflexivity|].
  apply (proj2 (category_change_resets_units "Speed"
                  ["meter_per_second"; "kilometer_per_hour"; "mile_per_hour"]
                  eq_refl) 3%Z hand_picked_page).
  - vm_compute. repeat constructor.
  - vm_compute. discriminate.
Defined.

(** ** The handlers, by cases *)

Ltac run_handler :=
  unfold handleConvert_settled, handleCurrencyConvert_settled,
    handleConvert_submit, handleCurrencyConvert_submit,
    lifecycle_settled, lifecycle_submit,
    try_catch_finally, await_fetch, res_json, throw, lift, update,
    mbind, M_bind, mret, M_ret;
  simpl.

Lemma handleConvert_settled_eq r o s unit :
  to_string (toUnit r) = inr unit →
  handleConvert_settled r o s
  = (inr tt,
     lifecycle_settled "Conversion failed." "Could not reach backend."
       setResult unit o s).
Proof.
  intros Hunit. destruct o as [|[[] [|data]]]; run_handler; try reflexivity.
  - destruct (read_property data "result") as [?|number]; [reflexivity|].
    destruct (to_string number); [reflexivity|]. by rewrite Hunit.
  - by destruct (read_property data "detail").
Qed.

Lemma handleCurrencyConvert_settled_eq r o s :
  handleCurrencyConvert_settled r o s
  = (inr tt,
     lifecycle_settled "Currency conversion failed."
       "Could not reach backend for currency."
       setCurrencyResult (currencyTo r) o s).
Proof.
  destruct o as [|[[] [|data]]]; run_handler; try reflexivity.
  - destruct (read_property data "result") as [?|number]; [reflexivity|].
    by destruct (to_string number).
  - by destruct (read_property data "detail").
Qed.

Lemma handleConvert_settled_failed r o s :
  failed o = true →
  handleConvert_settled r o s
  = (inr tt,
     lifecycle_settled "Conversion failed." "Could not reach backend."
       setResult "" o s).
Proof.
  destruct o as [|[[] [|data]]]; try discriminate; intros _; run_handler;
    try reflexivity.
  by destruct (read_property data "detail").
Qed.

(** Whatever the response, [handleConvert] ends without an exception, with
    [isLoading] false, and writes [error] and [result] only. *)
Lemma handleConvert_settled_shape r o s :
  ∃ s', handleConvert_settled r o s = (inr tt, s')
    ∧ isLoading s' = false
    ∧ currency_cells s' = currency_cells s
    ∧ (category s', value s', fromUnit s', toUnit s', history s')
      = (category s, value s, fromUnit s, toUnit s, history s).
Proof.
  destruct o as [|[[] [|data]]]; run_handler; eauto.
  - destruct (read_property data "result") as [?|number]; eauto.
    destruct (to_string number); eauto.
    destruct (to_string (toUnit r)); eauto.
  - destruct (read_property data "detail"); eauto.
Qed.

Lemma handleCurrencyConvert_settled_shape r o s :
  ∃ s', handleCurrencyConvert_settled r o s = (inr tt, s')
    ∧ isLoading s' = false
    ∧ convert_cells s' = convert_cells s
    ∧ (enableCurrency s', currencyFrom s', currencyTo s', currencyValue s')
      = (enableCurrency s, currencyFrom s, currencyTo s, currencyValue s).
Proof.
  destruct o as [|[[] [|data]]]; run_handler; eauto.
  - destruct (read_property data "result") as [?|number]; eauto.
    destruct (to_string number); eauto.
  - destruct (read_property data "detail"); eauto.
Qed.

(** ** The effects *)

Lemma history_effect_cases now r s :
  history_effect now r s = (inr tt, s)
  ∨ history_effect now r s
    = (inr tt, setHistory (record (entry_of now r) (history s)) s)
    ∧ nonempty (result r) = true ∧ category r ≠ "Currency"
    ∧ truthy (error r) = false ∧ isLoading r = false.
Proof.
  unfold history_effect.
  destruct (nonempty (result r)) eqn:Hr; [|by left].
  destruct (nonempty (value r)); [|by left].
  destruct (truthy (fromUnit r)); [|by left].
  destruct (truthy (toUnit r)); [|by left].
  destruct (truthy (error r)) eqn:He; [by left|].
  destruct (isLoading r) eqn:Hl; [by left|].
  destruct (String.eqb (category r) "Currency") eqn:Hc; [by left|].
  right. simpl. by apply String.eqb_neq in Hc.
Qed.

Lemma category_effect_frame r s :
  kept_by_effects (category_effect r s).2 = kept_by_effects s.
Proof.
  unfold category_effect. by destruct (staticConfig !! category r).
Qed.

Lemma history_effect_frame now r s :
  kept_by_effects (history_effect now r s).2 = kept_by_effects s.
Proof. by destruct (history_effect_cases now r s) as [->|[-> _]]. Qed.

Lemma run_effects_frame now before r s :
  kept_by_effects (run_effects now before r s).2 = kept_by_effects s.
Proof.
  unfold run_effects, mbind, M_bind.
  set (first := if String.eqb (category before) (category r)
                then mret tt else category_effect r).
  assert (H1 : kept_by_effects (first s).2 = kept_by_effects s).
  { subst first. destruct (String.eqb (category before) (category r));
      [reflexivity|apply category_effect_frame]. }
  destruct (first s) as [[e|[]] s1]; simpl in *; [done|].
  rewrite <- H1.
  clearbody first.
  destruct (String.eqb (result before) (result r));
    [reflexivity|apply history_effect_frame].
Qed.

(** With [category] as before, no exception, and only the effect on
    [result] may run. *)
Lemma run_effects_same_category now before r s :
  category r = category before →
  run_effects now before r s
  = if String.eqb (result before) (result r) then (inr tt, s)
    else history_effect now r s.
Proof.
  intros Hc. unfold run_effects, mbind, M_bind, mret, M_ret.
  rewrite Hc, String.eqb_refl.
  by destruct (String.eqb (result before) (result r)).
Qed.

Lemma run_effects_quiet now before r s :
  category r = category before →
  result r = result before ∨ result r = "" →
  run_effects now before r s = (inr tt, s).
Proof.
  intros Hc Hr. rewrite run_effects_same_category by done.
  destruct (String.eqb (result before) (result r)) eqn:E; [done|].
  destruct Hr as [Hr|Hr].
  - rewrite Hr, String.eqb_refl in E. discriminate.
  - unfold history_effect. by rewrite Hr.
Qed.

(** ** One turn of the event loop *)

Lemma dispatch_unfold now e p :
  let p1 := (handle e p).2 in
  let after := run_effects now (ui p) (ui p1) (ui p1) in
  dispatch now e p
  = (match (handle e p).1 with inl x => inl x | inr _ => after.1 end,
     mkPage after.2 (convertCalls p1) (currencyCalls p1)).
Proof.
  unfold dispatch, in_ui. destruct (handle e p) as [res p1]. simpl.
  by destruct (run_effects now (ui p) (ui p1) (ui p1)).
Qed.

Lemma step_calls now e p :
  convertCalls (step now e p) = convertCalls (handle e p).2
  ∧ currencyCalls (step now e p) = currencyCalls (handle e p).2.
Proof. unfold step. by rewrite dispatch_unfold. Qed.

Lemma step_kept now e p :
  kept_by_effects (ui (step now e p)) = kept_by_effects (ui (handle e p).2).
Proof. unfold step. rewrite dispatch_unfold. simpl. apply run_effects_frame. Qed.

Ltac guarded_update :=
  repeat match goal with
         | |- context [if ?c then in_ui _ _ else _] => destruct c
         | |- context [if ?c then (_, _) else (_, _)] => destruct c
         end;
  simpl.

Lemma handle_one_request e p :
  one_request_at_a_time p → one_request_at_a_time (handle e p).2.
Proof.
  unfold one_request_at_a_time. destruct p as [s cc uc]. simpl. intros Inv.
  destruct e; simpl; try (guarded_update; done).
  - (* SubmitConvert *)
    unfold convert_disabled. destruct (isLoading s) eqn:L; simpl; rewrite ?L; [done|].
    destruct (nonempty (value s)); simpl; rewrite ?L; [|done].
    rewrite length_app. simpl. lia.
  - (* SubmitCurrency *)
    unfold currency_disabled.
    destruct (isLoading s) eqn:L; simpl;
      [by rewrite orb_true_r; simpl; rewrite L|].
    destruct (enableCurrency s), (nonempty (currencyValue s)); simpl;
      rewrite ?L; try done.
    rewrite length_app. simpl. lia.
  - (* ConvertSettled *)
    destruct (cc !! i) as [call|] eqn:Hi; [|done].
    destruct (handleConvert_settled_shape call o s) as (s' & E & L & _).
    unfold in_ui. simpl. rewrite E. simpl. rewrite L.
    assert (i < length cc)%nat by (eapply lookup_lt_Some; eauto).
    rewrite length_delete by eauto. destruct (isLoading s); lia.
  - (* CurrencySettled *)
    destruct (uc !! i) as [call|] eqn:Hi; [|done].
    destruct (handleCurrencyConvert_settled_shape call o s) as (s' & E & L & _).
    unfold in_ui. simpl. rewrite E. simpl. rewrite L.
    assert (i < length uc)%nat by (eapply lookup_lt_Some; eauto).
    rewrite length_delete by eauto. destruct (isLoading s); lia.
Qed.

Lemma reachable_one_request p : reachable p → one_request_at_a_time p.
Proof.
  induction 1 as [now|now e p _ IH]; [reflexivity|].
  pose proof (handle_one_request e p IH) as H.
  unfold one_request_at_a_time in *.
  destruct (step_calls now e p) as [-> ->].
  pose proof (step_kept now e p) as K. unfold kept_by_effects, shared_cells in K.
  injection K as _ HL _ _ _ _. by rewrite HL.
Qed.

Lemma step_refused now e p : handle e p = (inr tt, p) → step now e p = p.
Proof.
  intros H. unfold step. rewrite dispatch_unfold, H. simpl.
  rewrite run_effects_quiet by auto. by destruct p.
Qed.

Lemma run_reachable evs : ∀ p, reachable p → reachable (run evs p).
Proof.
  induction evs as [|[now e] evs IH]; intros p Hp; [done|].
  apply IH. by constructor.
Qed.

Lemma run_snoc evs now e p : run (evs ++ [(now, e)]) p = step now e (run evs p).
Proof. unfold run. by rewrite foldl_app. Qed.

(** What a handler does to the cells the effects depend on: it leaves
    [history] alone, and either keeps [category] and keeps or empties
    [result], or keeps [result], or is a conversion that succeeded. *)
Lemma handle_cases e p :
  let s := ui p in
  let s1 := ui (handle e p).2 in
  history s1 = history s
  ∧ (category s1 = category s ∧ (result s1 = result s ∨ result s1 = "")
     ∨ result s1 = result s
     ∨ ∃ i call res data number shown unit,
         e = ConvertSettled i (Resolved res)
         ∧ convertCalls p !! i = Some call
         ∧ ok res = true ∧ content res = Json data
         ∧ read_property data "result" = inr number
         ∧ to_string number = inr shown
         ∧ to_string (toUnit call) = inr unit
         ∧ s1 = setIsLoading false (setResult (shown ++ " " ++ unit) s)).
Proof.
  destruct p as [s cc uc]. simpl.
  destruct e; simpl;
    try (guarded_update; (split; [reflexivity|]); auto 6; fail).
  - (* SubmitConvert *)
    destruct (convert_disabled s); unfold in_ui; run_handler; auto 6.
  - (* SubmitCurrency *)
    destruct (negb (enableCurrency s) || currency_disabled s);
      unfold in_ui; run_handler; auto 6.
  - (* ConvertSettled *)
    destruct (cc !! i) as [call|] eqn:Hi; [|simpl; auto].
    unfold in_ui. simpl.
    destruct o as [|[[] [|data]]]; run_handler; auto.
    + destruct (read_property data "result") as [?|number] eqn:Hn; simpl; auto.
      destruct (to_string number) as [?|shown] eqn:Hs; simpl; auto.
      destruct (to_string (toUnit call)) as [?|unit] eqn:Hu; simpl; auto.
      split; [reflexivity|]. right. right.
      by exists i, call, (mkResponse true (Json data)), data, number, shown, unit.
    + destruct (read_property data "detail"); simpl; auto.
  - (* CurrencySettled *)
    destruct (uc !! i) as [call|] eqn:Hi; [|simpl; auto].
    unfold in_ui.
    destruct (handleCurrencyConvert_settled_shape call o s)
      as (s' & E & _ & K & _).
    simpl. rewrite E. simpl. unfold convert_cells in K.
    injection K as Hc _ _ _ Hr Hh. auto.
Qed.

Lemma run_effects_same_result now before r s :
  result r = result before →
  history (run_effects now before r s).2 = history s.
Proof.
  intros Hr. unfold run_effects, mbind, M_bind. rewrite Hr, String.eqb_refl.
  destruct (String.eqb (category before) (category r)); [reflexivity|].
  unfold category_effect. by destruct (staticConfig !! category r).
Qed.

(** The one way [history] changes: a conversion succeeded, and the effect on
    [result] recorded the cells of the render that shows its result. *)
Lemma step_history now e p :
  history (ui (step now e p)) = history (ui p)
  ∨ ∃ i call res data number shown unit,
      e = ConvertSettled i (Resolved res)
      ∧ convertCalls p !! i = Some call
      ∧ ok res = true ∧ content res = Json data
      ∧ read_property data "result" = inr number
      ∧ to_string number = inr shown
      ∧ to_string (toUnit call) = inr unit
      ∧ category (ui p) ≠ "Currency"
      ∧ history (ui (step now e p))
        = record (Entry.mk (category (ui p)) (value (ui p)) (fromUnit (ui p))
                    (toUnit (ui p)) (shown ++ " " ++ unit) now)
                 (history (ui p)).
Proof.
  unfold step. rewrite dispatch_unfold. simpl.
  destruct (handle_cases e p)
    as [Hh [[Hc Hr]|[Hr|(i & call & res & data & number & shown & unit
                         & He & Hi & Hok & Hd & Hn & Hs & Hu & H1)]]].
  - left. by rewrite run_effects_quiet.
  - left. by rewrite run_effects_same_result.
  - rewrite H1 in *. rewrite run_effects_same_category by reflexivity.
    destruct (String.eqb _ _); [by left|].
    destruct (history_effect_cases now
                (setIsLoading false (setResult (shown ++ " " ++ unit) (ui p)))
                (setIsLoading false (setResult (shown ++ " " ++ unit) (ui p))))
      as [->|(-> & _ & Hcur & _)]; [by left|].
    right. by exists i, call, res, data, number, shown, unit.
Qed.

(** ** At most one request in flight *)

(** C4. While a workflow has a request in flight its submit button is
    disabled, and submitting then issues no second request: the page stays
    as it is. On every page the event loop can reach, each workflow has at
    most one request in flight. *)
Theorem one_request_in_flight (p : Page) (Hreach : reachable p) :
  (convertCalls p ≠ [] →
     convert_disabled (ui p) = true ∧ ∀ now, step now SubmitConvert p = p)
  ∧ (currencyCalls p ≠ [] →
     currency_disabled (ui p) = true ∧ ∀ now, step now SubmitCurrency p = p)
  ∧ (length (convertCalls p) ≤ 1)%nat
  ∧ (length (currencyCalls p) ≤ 1)%nat.
Proof.
  pose proof (reachable_one_request p Hreach) as Inv.
  unfold one_request_at_a_time in Inv.
  assert (Hbusy : convertCalls p ≠ [] ∨ currencyCalls p ≠ [] →
                  isLoading (ui p) = true).
  { destruct (isLoading (ui p)); [done|].
    destruct (convertCalls p), (currencyCalls p); simpl in Inv; try lia.
    intros [?|?]; done. }
  repeat split.
  - unfold convert_disabled. rewrite Hbusy by auto. reflexivity.
  - intros now. apply step_refused. simpl.
    unfold convert_disabled. by rewrite Hbusy by auto.
  - unfold currency_disabled. rewrite Hbusy by auto. reflexivity.
  - intros now. apply step_refused. simpl.
    unfold currency_disabled. rewrite Hbusy by auto.
    by rewrite orb_true_r.
  - destruct (isLoading (ui p)); lia.
  - destruct (isLoading (ui p)); lia.
Qed.

Lemma convert_pending_page_reachable : reachable convert_pending_page.
Proof. apply reach_step, run_reachable, reach_mounted. Qed.

Lemma one_request_in_flight_witness :
  convertCalls convert_pending_page ≠ []
  ∧ convert_disabled (ui convert_pending_page) = true
  ∧ step 5 SubmitConvert convert_pending_page = convert_pending_page.
Proof.
  assert (Hpending : convertCalls convert_pending_page ≠ []) by discriminate.
  destruct (one_request_in_flight convert_pending_page
              convert_pending_page_reachable) as [Hconvert _].
  destruct (Hconvert Hpending) as [Hdisabled Hrefused].
  split; [exact Hpending|]. split; [exact Hdisabled|]. apply Hrefused.
Defined.

(** ** Where the entries of the history come from *)

Lemma mounted_eq now : mounted now = mkPage initial_state [] [].
Proof. reflexivity. Qed.

(** C5. No event of the currency workflow, however its request ends, adds
    an entry to the history; the history changes only when a request of the
    converter form is answered with a success status and a result, and then
    by recording that result; and every entry of a history the event loop
    has built is the record of such an answer in the past. *)
Theorem history_from_conversions_only :
  (∀ now e p, is_currency_event e = true →
     history (ui (step now e p)) = history (ui p))
  ∧ (∀ now e p, history (ui (step now e p)) ≠ history (ui p) →
       ∃ i call res data number shown unit,
         e = ConvertSettled i (Resolved res)
         ∧ convertCalls p !! i = Some call
         ∧ ok res = true ∧ content res = Json data
         ∧ read_property data "result" = inr number
         ∧ to_string number = inr shown
         ∧ to_string (toUnit call) = inr unit
         ∧ history (ui (step now e p))
           = record (Entry.mk (category (ui p)) (value (ui p))
                       (fromUnit (ui p)) (toUnit (ui p))
                       (shown ++ " " ++ unit) now)
                    (history (ui p)))
  ∧ (∀ now0 evs entry, entry ∈ history (ui (run evs (mounted now0))) →
       Entry.category entry ≠ "Currency"
       ∧ ∃ i res data number shown unit,
           (Entry.timestamp entry, ConvertSettled i (Resolved res)) ∈ evs
           ∧ ok res = true ∧ content res = Json data
           ∧ read_property data "result" = inr number
           ∧ to_string number = inr shown
           ∧ Entry.result entry = shown ++ " " ++ unit).
Proof.
  split; [|split].
  - intros now e p He.
    destruct (step_history now e p)
      as [H|(i & call & res & ? & ? & ? & ? & -> & _)]; [exact H|discriminate].
  - intros now e p Hne.
    destruct (step_history now e p)
      as [H|(i & call & res & data & number & shown & unit
             & He & Hi & Hok & Hd & Hn & Hs & Hu & _ & Hrec)]; [done|].
    by exists i, call, res, data, number, shown, unit.
  - intros now0 evs. induction evs as [|[now e] evs IH] using rev_ind;
      intros entry Hin.
    { rewrite mounted_eq in Hin. simpl in Hin. by apply elem_of_nil in Hin. }
    rewrite run_snoc in Hin.
    assert (Hold : entry ∈ history (ui (run evs (mounted now0))) →
      Entry.category entry ≠ "Currency"
      ∧ ∃ i res data number shown unit,
          (Entry.timestamp entry, ConvertSettled i (Resolved res))
            ∈ (evs ++ [(now, e)])%list
          ∧ ok res = true ∧ content res = Json data
          ∧ read_property data "result" = inr number
          ∧ to_string number = inr shown
          ∧ Entry.result entry = shown ++ " " ++ unit).
    { intros H. destruct (IH entry H)
        as (Hc & i & res & data & number & shown & unit & Hev & Hrest).
      split; [exact Hc|]. exists i, res, data, number, shown, unit.
      split; [|exact Hrest]. apply elem_of_app. by left. }
    destruct (step_history now e (run evs (mounted now0)))
      as [H|(i & call & res & data & number & shown & unit
             & -> & Hi & Hok & Hd & Hn & Hs & Hu & Hcur & Hrec)].
    + rewrite H in Hin. by apply Hold.
    + rewrite Hrec in Hin. unfold record in Hin.
      apply elem_of_cons in Hin as [->|Hin].
      * split; [exact Hcur|]. exists i, res, data, number, shown, unit. simpl.
        split; [|done]. apply elem_of_app. right. by apply list_elem_of_singleton.
      * apply Hold. by eapply subseteq_take.
Qed.

Lemma history_from_conversions_only_witness :
  is_currency_event (CurrencySettled 0 (converted "4.6")) = true
  ∧ history (ui (step 5 (CurrencySettled 0 (converted "4.6"))
                   currency_pending_page))
    = history (ui currency_pending_page).
Proof.
  split; [reflexivity|].
  apply (proj1 history_from_conversions_only). reflexivity.
Defined.

(** ** How a conversion fails *)

Lemma lifecycle_failed_quiet fallback transport store unit o s :
  failed o = true →
  (∀ x t, category (store x t) = category t) →
  (∀ t, result (store "" t) = result t ∨ result (store "" t) = "") →
  let s' := lifecycle_settled fallback transport store unit o s in
  category s' = category s ∧ (result s' = result s ∨ result s' = "").
Proof.
  intros Hf Hc Hr. destruct o as [|[[] [|data]]]; try discriminate;
    unfold lifecycle_settled; simpl; auto.
  destruct (read_property data "detail") as [?|detail]; simpl; auto.
  split; [by rewrite Hc|].
  destruct (Hr (setError (js_or detail (VStr fallback)) s)) as [E|E];
    rewrite E; auto.
Qed.

Lemma dispatch_convert_failed now p i call o :
  convertCalls p !! i = Some call → failed o = true →
  dispatch now (ConvertSettled i o) p
  = (inr tt,
     mkPage (lifecycle_settled "Conversion failed." "Could not reach backend."
               setResult "" o (ui p))
            (delete i (convertCalls p)) (currencyCalls p)).
Proof.
  intros Hi Hf. rewrite dispatch_unfold. simpl. rewrite Hi. unfold in_ui. simpl.
  rewrite handleConvert_settled_failed by done. simpl.
  destruct (lifecycle_failed_quiet "Conversion failed."
              "Could not reach backend." setResult "" o (ui p) Hf)
    as [Hc Hr]; [done|by right|].
  by rewrite run_effects_quiet.
Qed.

(** The handlers and the effects on [result] end without an exception. *)
Lemma dispatch_convert_settled_total now p i o :
  (dispatch now (ConvertSettled i o) p).1 = inr tt.
Proof.
  rewrite dispatch_unfold. simpl.
  destruct (convertCalls p !! i) as [call|]; simpl.
  - unfold in_ui. simpl.
    destruct (handleConvert_settled_shape call o (ui p)) as (s' & -> & _ & _ & K).
    simpl. injection K as Hc _ _ _ _.
    rewrite run_effects_same_category by done.
    destruct (String.eqb _ _); [done|].
    by destruct (history_effect_cases now s' s') as [->|[-> _]].
  - by rewrite run_effects_quiet by auto.
Qed.

(** The claim C3 fails where the body of the failure is not JSON: a gateway
    answers with status 502 and an HTML page, and the error cell receives
    the message of an unreachable backend, not "Conversion failed.". *)
Lemma convert_failure_without_json :
  bad_gateway = Resolved (mkResponse false NotJson)
  ∧ error (ui (step 5 (ConvertSettled 0 bad_gateway) convert_pending_page))
    = VStr "Could not reach backend."
  ∧ error (ui (step 5 (ConvertSettled 0 bad_gateway) convert_pending_page))
    ≠ VStr "Conversion failed.".
Proof. repeat split. discriminate. Qed.

(** C10. When the endpoint of the converter form answers with a body that
    is not JSON, whatever the status, the page ends up exactly as if the
    backend had not been reached: the error cell holds "Could not reach
    backend.", not "Conversion failed.". *)
Theorem unparseable_reported_as_unreachable
    (now : Z) (p : Page) (i : nat) (call : State) (status_ok : bool)
    (Hcall : convertCalls p !! i = Some call) :
  dispatch now (ConvertSettled i (Resolved (mkResponse status_ok NotJson))) p
  = (inr tt,
     mkPage (setIsLoading false
               (setError (VStr "Could not reach backend.") (ui p)))
            (delete i (convertCalls p)) (currencyCalls p))
  ∧ dispatch now (ConvertSettled i (Resolved (mkResponse status_ok NotJson))) p
    = dispatch now (ConvertSettled i Rejected) p
  ∧ VStr "Could not reach backend." ≠ VStr "Conversion failed.".
Proof.
  rewrite !(dispatch_convert_failed now p i call) by done.
  repeat split. discriminate.
Qed.

Lemma unparseable_reported_as_unreachable_witness :
  convertCalls convert_pending_page !! 0%nat = Some (ui filled_page)
  ∧ error (ui (step 5 (ConvertSettled 0 bad_gateway) convert_pending_page))
    = VStr "Could not reach backend."
  ∧ isLoading (ui (step 5 (ConvertSettled 0 bad_gateway) convert_pending_page))
    = false.
Proof.
  destruct (unparseable_reported_as_unreachable 5 convert_pending_page 0
              (ui filled_page) false eq_refl) as (Hpage & _ & _).
  split; [reflexivity|]. unfold step, bad_gateway. rewrite Hpage. split; reflexivity.
Defined.

(** ** The two workflows side by side *)

(** A handler of one workflow leaves the cells and the pending requests of
    the other as they are. *)
Lemma handle_frame e p :
  let p1 := (handle e p).2 in
  (is_currency_event e = true →
     convert_cells (ui p1) = convert_cells (ui p)
     ∧ convertCalls p1 = convertCalls p)
  ∧ (is_convert_event e = true →
     currency_cells (ui p1) = currency_cells (ui p)
     ∧ currencyCalls p1 = currencyCalls p).
Proof.
  destruct p as [s cc uc].
  destruct e; simpl; (split; [try discriminate|try discriminate]); intros _;
    try (guarded_update; done).
  - destruct (convert_disabled s); done.
  - destruct (negb (enableCurrency s) || currency_disabled s); done.
  - destruct (cc !! i) as [call|]; [|done]. unfold in_ui. simpl.
    by destruct (handleConvert_settled_shape call o s) as (s' & -> & _ & K & _).
  - destruct (uc !! i) as [call|]; [|done]. unfold in_ui. simpl.
    by destruct (handleCurrencyConvert_settled_shape call o s)
      as (s' & -> & _ & K & _).
Qed.

(** The claim C7 fails on the error cell: the conversion was refused with
    "bad unit", the currency form is submitted, and the message is gone;
    the currency request is refused in turn, and its message takes the
    place. *)
Lemma currency_submit_clears_convert_error :
  error (ui convert_failed_page) = VStr "bad unit"
  ∧ error (ui (step 6 SubmitCurrency convert_failed_page)) = VStr ""
  ∧ error (ui (run [(6, SubmitCurrency); (7, CurrencySettled 0 no_detail)]%Z
                   convert_failed_page))
    = VStr "Currency conversion failed.".
Proof. repeat split. Qed.

(** C6, as the code has it. The workflows share the error cell and the
    loading flag. On every page the event loop can reach, the flag is set
    exactly while one request, of either workflow, is pending; it disables
    both submit buttons; so the two workflows never have requests in flight
    together. They can still be in different states: the converter form
    shows a result while the currency request is pending. *)
Theorem workflows_share_loading (p : Page) (Hreach : reachable p) :
  (isLoading (ui p) = true
   ↔ (length (convertCalls p) + length (currencyCalls p) = 1)%nat)
  ∧ (isLoading (ui p) = false ↔ convertCalls p = [] ∧ currencyCalls p = [])
  ∧ (convertCalls p = [] ∨ currencyCalls p = [])
  ∧ (isLoading (ui p) = true →
     convert_disabled (ui p) = true ∧ currency_disabled (ui p) = true)
  ∧ (∃ q, reachable q ∧ result (ui q) = "3.6 kilometer"
          ∧ convertCalls q = [] ∧ length (currencyCalls q) = 1%nat).
Proof.
  pose proof (reachable_one_request p Hreach) as Inv.
  unfold one_request_at_a_time in Inv.
  repeat split.
  - intros L. by rewrite L in Inv.
  - intros H. destruct (isLoading (ui p)); [done|lia].
  - destruct (convertCalls p); [done|]. rewrite H in Inv. simpl in Inv. lia.
  - destruct (currencyCalls p); [done|]. rewrite H in Inv.
    destruct (convertCalls p); simpl in Inv; lia.
  - intros [Hc Hu]. rewrite Hc, Hu in Inv. by destruct (isLoading (ui p)).
  - destruct (convertCalls p); [by left|]. right.
    destruct (currencyCalls p); [done|].
    destruct (isLoading (ui p)); simpl in Inv; lia.
  - unfold convert_disabled. by rewrite H.
  - unfold currency_disabled. by rewrite H.
  - exists converted_then_currency_page. repeat split.
    apply run_reachable, reach_step, run_reachable, reach_mounted.
Qed.

Lemma workflows_share_loading_witness :
  isLoading (ui convert_pending_page) = true
  ∧ currencyCalls convert_pending_page = []
  ∧ currency_disabled (ui convert_pending_page) = true.
Proof.
  destruct (workflows_share_loading convert_pending_page
              convert_pending_page_reachable) as (_ & _ & _ & Hdisabled & _).
  split; [reflexivity|]. split; [reflexivity|].
  exact (proj2 (Hdisabled eq_refl)).
Defined.

(** The claim C6 fails on the loading flag: with the request of the
    converter form pending, the currency form, switched on and filled in,
    cannot be submitted, though it could the moment before; and no page the
    event loop can reach has requests of both workflows in flight. *)
Lemma convert_request_blocks_currency :
  currencyCalls convert_pending_page = []
  ∧ enableCurrency (ui convert_pending_page) = true
  ∧ nonempty (currencyValue (ui convert_pending_page)) = true
  ∧ step 5 SubmitCurrency convert_pending_page = convert_pending_page
  ∧ length (currencyCalls (step 5 SubmitCurrency filled_page)) = 1%nat
  ∧ ¬ ∃ p, reachable p ∧ convertCalls p ≠ [] ∧ currencyCalls p ≠ [].
Proof.
  repeat split. intros (p & Hreach & Hc & Hu).
  pose proof (reachable_one_request p Hreach) as Inv.
  unfold one_request_at_a_time in Inv.
  destruct (convertCalls p); [done|]. destruct (currencyCalls p); [done|].
  destruct (isLoading (ui p)); simpl in Inv; lia.
Qed.

(** ** The two controllers compared *)

(** C8, as the code has it. The two controllers run the same lifecycle:
    the same submit, the same cases on how the request ends, the detail of
    a failure passed through when it is truthy. They differ in the cell the
    outcome goes to, in the unit, and in their messages: the currency
    controller says "Currency conversion failed." where the other says
    "Conversion failed.", and "Could not reach backend for currency." where
    the other says "Could not reach backend.". *)
Theorem controllers_share_lifecycle
    (r : State) (o : Settled) (s : State) (unit : string)
    (Hunit : to_string (toUnit r) = inr unit) :
  handleConvert_submit s = (inr tt, lifecycle_submit setResult s)
  ∧ handleCurrencyConvert_submit s
    = (inr tt, lifecycle_submit setCurrencyResult s)
  ∧ handleConvert_settled r o s
    = (inr tt,
       lifecycle_settled "Conversion failed." "Could not reach backend."
         setResult unit o s)
  ∧ handleCurrencyConvert_settled r o s
    = (inr tt,
       lifecycle_settled "Currency conversion failed."
         "Could not reach backend for currency."
         setCurrencyResult (currencyTo r) o s).
Proof.
  split; [reflexivity|]. split; [reflexivity|].
  split; [by apply handleConvert_settled_eq|apply handleCurrencyConvert_settled_eq].
Qed.

Lemma controllers_share_lifecycle_witness :
  to_string (toUnit initial_state) = inr "kilometer"
  ∧ handleConvert_settled initial_state (converted "3.6") initial_state
    = (inr tt, setIsLoading false (setResult "3.6 kilometer" initial_state))
  ∧ handleCurrencyConvert_settled initial_state (converted "4.6") initial_state
    = (inr tt, setIsLoading false (setCurrencyResult "4.6 EUR" initial_state)).
Proof.
  split; [reflexivity|].
  destruct (controllers_share_lifecycle initial_state (converted "3.6")
              initial_state "kilometer" eq_refl) as (_ & _ & Hconvert & _).
  destruct (controllers_share_lifecycle initial_state (converted "4.6")
              initial_state "kilometer" eq_refl) as (_ & _ & _ & Hcurrency).
  split; [exact Hconvert|exact Hcurrency].
Defined.

(** The claim C8 fails on the messages: to the same failures the two
    controllers give different messages. *)
Lemma currency_messages_differ :
  error (handleConvert_settled initial_state no_detail initial_state).2
    = VStr "Conversion failed."
  ∧ error (handleCurrencyConvert_settled initial_state no_detail initial_state).2
    = VStr "Currency conversion failed."
  ∧ error (handleConvert_settled initial_state Rejected initial_state).2
    = VStr "Could not reach backend."
  ∧ error (handleCurrencyConvert_settled initial_state Rejected initial_state).2
    = VStr "Could not reach backend for currency."
  ∧ error (handleCurrencyConvert_settled initial_state no_detail initial_state).2
    ≠ error (handleConvert_settled initial_state no_detail initial_state).2
  ∧ error (handleCurrencyConvert_settled initial_state Rejected initial_state).2
    ≠ error (handleConvert_settled initial_state Rejected initial_state).2.
Proof. repeat split; discriminate. Qed.

(** * Further properties of the component *)

(** ** No exception leaves the event loop *)

Lemma category_options_catalog cat :
  cat ∈ category_options →
  cat ≠ "Currency"
  ∧ ∃ first second rest,
      staticConfig !! cat = Some (first :: second :: rest)
      ∧ first ≠ "" ∧ second ≠ "".
Proof.
  intros H. change category_options
    with ["Length"; "Weight"; "Temperature"; "Speed"] in H.
  repeat (apply elem_of_cons in H as [->|H]);
    [ .. | by apply elem_of_nil in H ];
    (split; [done|]); do 3 eexists; (split; [reflexivity|done]).
Qed.

Lemma handle_total e p : (handle e p).1 = inr tt.
Proof.
  destruct p as [s cc uc]. destruct e; simpl; try (guarded_update; done).
  - destruct (convert_disabled s); done.
  - destruct (negb (enableCurrency s) || currency_disabled s); done.
  - destruct (cc !! i) as [call|]; [|done]. unfold in_ui. simpl.
    by destruct (handleConvert_settled_shape call o s) as (s' & -> & _).
  - destruct (uc !! i) as [call|]; [|done]. unfold in_ui. simpl.
    by destruct (handleCurrencyConvert_settled_shape call o s) as (s' & -> & _).
Qed.

(** Only the category selector changes [category], and only to a category
    it offers. *)
Lemma handle_category e p :
  category (ui (handle e p).2) = category (ui p)
  ∨ ∃ cat, e = SelectCategory cat ∧ cat ∈ category_options
           ∧ (handle e p).2
             = mkPage (setCategory cat (ui p)) (convertCalls p) (currencyCalls p).
Proof.
  destruct p as [s cc uc].
  destruct e; simpl; try (left; guarded_update; done).
  - destruct (bool_decide (cat ∈ category_options)) eqn:Hcat; [|by left].
    right. exists cat. by apply bool_decide_eq_true in Hcat.
  - left. destruct (convert_disabled s); done.
  - left. destruct (negb (enableCurrency s) || currency_disabled s); done.
  - left. destruct (cc !! i) as [call|]; [|done]. unfold in_ui. simpl.
    destruct (handleConvert_settled_shape call o s) as (s' & -> & _ & _ & K).
    by injection K.
  - left. destruct (uc !! i) as [call|]; [|done]. unfold in_ui. simpl.
    destruct (handleCurrencyConvert_settled_shape call o s)
      as (s' & -> & _ & K & _).
    by injection K.
Qed.

Lemma setHistory_same s : setHistory (history s) s = s.
Proof. by destruct s. Qed.

(** After a handler that kept [category], the effects at most record the
    render in the history. *)
Lemma step_ui_same_category now e p :
  category (ui (handle e p).2) = category (ui p) →
  ∃ hist, ui (step now e p) = setHistory hist (ui (handle e p).2)
          ∧ (dispatch now e p).1 = inr tt.
Proof.
  intros Hc. unfold step. rewrite dispatch_unfold. simpl.
  rewrite handle_total, run_effects_same_category by done.
  set (s1 := ui (handle e p).2).
  destruct (String.eqb (result (ui p)) (result s1)).
  - exists (history s1). by rewrite setHistory_same.
  - destruct (history_effect_cases now s1 s1) as [->|[-> _]].
    + exists (history s1). by rewrite setHistory_same.
    + by eexists.
Qed.

(** After the category selector changed [category], the effect on
    [category] writes the first two units of the new category. *)
Lemma step_ui_new_category now cat p :
  cat ∈ category_options → category (ui p) ≠ cat →
  ∃ first second rest,
    staticConfig !! cat = Some (first :: second :: rest)
    ∧ first ≠ "" ∧ second ≠ ""
    ∧ dispatch now (SelectCategory cat) p
      = (inr tt,
         mkPage (setToUnit (VStr second)
                   (setFromUnit (VStr first) (setCategory cat (ui p))))
                (convertCalls p) (currencyCalls p)).
Proof.
  intros Hcat Hne.
  destruct (category_options_catalog cat Hcat)
    as (_ & first & second & rest & Hunits & H1 & H2).
  exists first, second, rest. repeat (split; [done|]).
  destruct p as [s cc uc]. simpl in Hne.
  unfold dispatch, handle. rewrite bool_decide_eq_true_2 by done.
  unfold in_ui, update, run_effects. simpl.
  rewrite (proj2 (String.eqb_neq _ _) Hne), String.eqb_refl.
  unfold mbind, M_bind, category_effect. simpl. rewrite Hunits.
  unfold update, js_or, index. simpl.
  by rewrite (proj2 (String.eqb_neq _ _) H2).
Qed.

(** ** The selectors always show one of their options *)

Lemma selection_valid_ext s s' :
  selection_cells s' = selection_cells s →
  selection_valid s' = selection_valid s.
Proof.
  unfold selection_cells, selection_valid. by intros [= -> -> -> -> ->].
Qed.

Lemma selection_valid_parts s :
  selection_valid s = true
  ↔ bool_decide (category s ∈ category_options) = true
    ∧ offered (unit_options (category s)) (fromUnit s) = true
    ∧ offered (unit_options (category s)) (toUnit s) = true
    ∧ bool_decide (currencyFrom s ∈ currency_options) = true
    ∧ bool_decide (currencyTo s ∈ currency_options) = true.
Proof. unfold selection_valid. rewrite !andb_true_iff. tauto. Qed.

Lemma selection_valid_inv s :
  selection_valid s = true →
  category s ∈ category_options
  ∧ (∃ from to, fromUnit s = VStr from ∧ toUnit s = VStr to
       ∧ from ∈ unit_options (category s) ∧ to ∈ unit_options (category s))
  ∧ currencyFrom s ∈ currency_options ∧ currencyTo s ∈ currency_options.
Proof.
  intros (Hc & Hf & Ht & Hcf & Hct)%selection_valid_parts.
  unfold offered in Hf, Ht.
  destruct (fromUnit s) as [| | | |from| |]; try discriminate.
  destruct (toUnit s) as [| | | |to| |]; try discriminate.
  apply bool_decide_eq_true in Hc, Hf, Ht, Hcf, Hct.
  split; [exact Hc|]. split; [|done]. by exists from, to.
Qed.

Lemma handle_selection e p :
  category (ui (handle e p).2) = category (ui p) →
  selection_valid (ui p) = true →
  selection_valid (ui (handle e p).2) = true.
Proof.
  destruct p as [s cc uc]. simpl. intros Hc Hs.
  destruct e; simpl in *;
    try (guarded_update; exact Hs).
  - (* SelectCategory *)
    destruct (bool_decide (cat ∈ category_options)); [|exact Hs].
    simpl in *. rewrite <- Hs. apply selection_valid_ext.
    unfold selection_cells. simpl. by rewrite Hc.
  - (* SelectFromUnit *)
    destruct (bool_decide (u ∈ unit_options (category s))) eqn:Hu; [|exact Hs].
    apply selection_valid_parts in Hs as (? & ? & ? & ? & ?).
    apply selection_valid_parts. simpl. by rewrite Hu.
  - (* SelectToUnit *)
    destruct (bool_decide (u ∈ unit_options (category s))) eqn:Hu; [|exact Hs].
    apply selection_valid_parts in Hs as (? & ? & ? & ? & ?).
    apply selection_valid_parts. simpl. by rewrite Hu.
  - destruct (convert_disabled s); exact Hs.
  - (* SelectCurrencyFrom *)
    destruct (enableCurrency s); [|exact Hs].
    destruct (bool_decide (cur ∈ currency_options)) eqn:Hu; [|exact Hs].
    apply selection_valid_parts in Hs as (? & ? & ? & ? & ?).
    by apply selection_valid_parts.
  - (* SelectCurrencyTo *)
    destruct (enableCurrency s); [|exact Hs].
    destruct (bool_decide (cur ∈ currency_options)) eqn:Hu; [|exact Hs].
    apply selection_valid_parts in Hs as (? & ? & ? & ? & ?).
    by apply selection_valid_parts.
  - destruct (negb (enableCurrency s) || currency_disabled s); exact Hs.
  - destruct (cc !! i) as [call|]; [|exact Hs]. unfold in_ui in *. simpl in *.
    destruct (handleConvert_settled_shape call o s) as (s' & E & _ & K1 & K2).
    rewrite E in *. simpl in *. rewrite <- Hs. apply selection_valid_ext.
    unfold selection_cells, currency_cells in *. congruence.
  - destruct (uc !! i) as [call|]; [|exact Hs]. unfold in_ui in *. simpl in *.
    destruct (handleCurrencyConvert_settled_shape call o s)
      as (s' & E & _ & K1 & K2).
    rewrite E in *. simpl in *. rewrite <- Hs. apply selection_valid_ext.
    unfold selection_cells, convert_cells in *. congruence.
Qed.

(** A pending handler holds a render that was the page when it was
    submitted. *)
Lemma handle_calls (P : State → Prop) e p :
  P (ui p) → Forall P (convertCalls p) → Forall P (currencyCalls p) →
  Forall P (convertCalls (handle e p).2)
  ∧ Forall P (currencyCalls (handle e p).2).
Proof.
  destruct p as [s cc uc]. simpl. intros Hs Hcc Huc.
  destruct e; simpl; try (guarded_update; done).
  - destruct (convert_disabled s); simpl; [done|].
    split; [|done]. apply Forall_app. by split; [|constructor].
  - destruct (negb (enableCurrency s) || currency_disabled s); simpl; [done|].
    split; [done|]. apply Forall_app. by split; [|constructor].
  - destruct (cc !! i) as [call|]; [|done]. unfold in_ui. simpl.
    destruct (handleConvert_settled call o s). simpl.
    split; [by apply Forall_delete|done].
  - destruct (uc !! i) as [call|]; [|done]. unfold in_ui. simpl.
    destruct (handleCurrencyConvert_settled call o s). simpl.
    split; [done|by apply Forall_delete].
Qed.

Lemma step_selection now e p :
  selection_valid (ui p) = true → selection_valid (ui (step now e p)) = true.
Proof.
  intros Hs. destruct (handle_category e p) as [Hc|(cat & -> & Hcat & Hp)].
  - destruct (step_ui_same_category now e p Hc) as (hist & -> & _).
    rewrite <- (handle_selection e p Hc Hs). by apply selection_valid_ext.
  - destruct (decide (category (ui p) = cat)) as [Heq|Hne].
    + assert (Hc : category (ui (handle (SelectCategory cat) p).2)
                   = category (ui p)) by (by rewrite Hp).
      destruct (step_ui_same_category now _ p Hc) as (hist & -> & _).
      rewrite <- (handle_selection _ p Hc Hs). by apply selection_valid_ext.
    + destruct (step_ui_new_category now cat p Hcat Hne)
        as (first & second & rest & Hunits & _ & _ & Hd).
      unfold step. rewrite Hd. simpl.
      apply selection_valid_parts in Hs as (_ & _ & _ & Hcf & Hct).
      apply selection_valid_parts. unfold offered, unit_options. simpl.
      rewrite Hunits. simpl. rewrite Hcf, Hct, !bool_decide_eq_true.
      repeat split; try done; auto using list_elem_of_here, list_elem_of_further.
Qed.

Lemma reachable_selection p :
  reachable p →
  selection_valid (ui p) = true
  ∧ Forall (λ call, selection_valid call = true) (convertCalls p)
  ∧ Forall (λ call, selection_valid call = true) (currencyCalls p).
Proof.
  induction 1 as [now|now e p _ (Hs & Hcc & Huc)].
  - by repeat split; try constructor.
  - split; [by apply step_selection|].
    destruct (step_calls now e p) as [-> ->].
    by apply handle_calls.
Qed.

(** X2. On every page the event loop can reach, each selector shows one of
    the options it offers: the category is a category of the catalog other
    than "Currency", both units are units of that category, and both
    currencies are currency codes of the catalog. *)
Theorem selection_always_offered (p : Page) (Hreach : reachable p) :
  category (ui p) ∈ category_options
  ∧ category (ui p) ≠ "Currency"
  ∧ (∃ from to, fromUnit (ui p) = VStr from ∧ toUnit (ui p) = VStr to
       ∧ from ∈ unit_options (category (ui p))
       ∧ to ∈ unit_options (category (ui p)))
  ∧ currencyFrom (ui p) ∈ currency_options
  ∧ currencyTo (ui p) ∈ currency_options.
Proof.
  destruct (reachable_selection p Hreach) as [Hs _].
  destruct (selection_valid_inv _ Hs) as (Hc & Hu & Hcf & Hct).
  split; [exact Hc|]. split; [|done].
  by destruct (category_options_catalog _ Hc).
Qed.

Lemma convert_failed_page_reachable : reachable convert_failed_page.
Proof. apply reach_step, convert_pending_page_reachable. Qed.

Lemma selection_always_offered_witness :
  category (ui convert_failed_page) ∈ category_options
  ∧ category (ui convert_failed_page) ≠ "Currency".
Proof.
  destruct (selection_always_offered convert_failed_page
              convert_failed_page_reachable) as (Hoffered & Hne & _).
  split; [exact Hoffered|exact Hne].
Defined.

(** ** The history on the page *)

Lemma reachable_history_length p :
  reachable p → (length (history (ui p)) ≤ 10)%nat.
Proof.
  induction 1 as [now|now e p _ IH]; [rewrite mounted_eq; simpl; lia|].
  destruct (step_history now e p)
    as [->|(? & ? & ? & ? & ? & ? & ? & _ & _ & _ & _ & _ & _ & _ & _ & ->)];
    [exact IH|].
  unfold record. simpl. rewrite length_take. lia.
Qed.

(** X3. On every page the event loop can reach, the history holds at most
    ten entries; and a turn of the loop either leaves it as it is or puts
    one entry, stamped with the time of the turn, in front of its first nine
    entries: no entry is ever edited or moved. *)
Theorem history_bounded_append_only (p : Page) (Hreach : reachable p) :
  (length (history (ui p)) ≤ 10)%nat
  ∧ ∀ now e,
      history (ui (step now e p)) = history (ui p)
      ∨ ∃ entry, Entry.timestamp entry = now
                 ∧ history (ui (step now e p))
                   = entry :: take 9 (history (ui p)).
Proof.
  split; [by apply reachable_history_length|].
  intros now e. destruct (step_history now e p)
    as [H|(? & ? & ? & ? & ? & ? & ? & _ & _ & _ & _ & _ & _ & _ & _ & H)];
    [by left|].
  right. eexists. split; [|exact H]. reflexivity.
Qed.

Lemma history_bounded_append_only_witness :
  (length (history (ui converted_then_currency_page)) ≤ 10)%nat.
Proof.
  apply (history_bounded_append_only converted_then_currency_page).
  apply run_reachable, convert_pending_page_reachable.
Defined.

(** ** What a pending request clears *)

Lemma handle_pending_clear e p :
  one_request_at_a_time p → pending_clear p → pending_clear (handle e p).2.
Proof.
  unfold one_request_at_a_time, pending_clear.
  destruct p as [s cc uc]. simpl. intros Inv [Hc Hu].
  destruct e; simpl; try (guarded_update; done).
  - (* SubmitConvert *)
    destruct (convert_disabled s); simpl; [done|].
    split; [done|]. intros H. by destruct (Hu H) as [-> _].
  - (* SubmitCurrency *)
    destruct (negb (enableCurrency s) || currency_disabled s); simpl; [done|].
    split; [|done]. intros H. by destruct (Hc H) as [-> _].
  - (* ConvertSettled *)
    destruct (cc !! i) as [call|] eqn:Hi; [|done].
    assert (i < length cc)%nat by (eapply lookup_lt_Some; eauto).
    assert (length (delete i cc) = 0 ∧ length uc = 0)%nat as [Hcc Huc].
    { rewrite length_delete by eauto. destruct (isLoading s); lia. }
    unfold in_ui. simpl. destruct (handleConvert_settled call o s). simpl.
    destruct (delete i cc), uc; try done.
  - (* CurrencySettled *)
    destruct (uc !! i) as [call|] eqn:Hi; [|done].
    assert (i < length uc)%nat by (eapply lookup_lt_Some; eauto).
    assert (length cc = 0 ∧ length (delete i uc) = 0)%nat as [Hcc Huc].
    { rewrite length_delete by eauto. destruct (isLoading s); lia. }
    unfold in_ui. simpl. destruct (handleCurrencyConvert_settled call o s). simpl.
    destruct cc, (delete i uc); try done.
Qed.

Lemma reachable_pending_clear p : reachable p → pending_clear p.
Proof.
  induction 1 as [now|now e p Hp IH]; [by split|].
  pose proof (handle_pending_clear e p (reachable_one_request p Hp) IH) as H.
  unfold pending_clear in *.
  destruct (step_calls now e p) as [-> ->].
  pose proof (step_kept now e p) as K.
  unfold kept_by_effects, shared_cells, currency_cells in K.
  injection K as He _ _ _ _ _ Hcr _ _ Hr.
  by rewrite He, Hcr, Hr.
Qed.

(** X4. On every page the event loop can reach, a pending request means
    that the loading flag is set and that the page shows no error message
    and no earlier result of that workflow: submitting cleared them, and
    nothing wrote them since. *)
Theorem pending_request_shows_nothing_stale (p : Page) (Hreach : reachable p) :
  (convertCalls p ≠ [] →
     isLoading (ui p) = true ∧ result (ui p) = "" ∧ error (ui p) = VStr "")
  ∧ (currencyCalls p ≠ [] →
     isLoading (ui p) = true ∧ currencyResult (ui p) = ""
     ∧ error (ui p) = VStr "")
  ∧ (isLoading (ui p) = true → error (ui p) = VStr "").
Proof.
  destruct (reachable_pending_clear p Hreach) as [Hc Hu].
  pose proof (reachable_one_request p Hreach) as Inv.
  unfold one_request_at_a_time in Inv.
  assert (Hbusy : convertCalls p ≠ [] ∨ currencyCalls p ≠ [] →
                  isLoading (ui p) = true).
  { destruct (isLoading (ui p)); [done|].
    destruct (convertCalls p), (currencyCalls p); simpl in Inv; try lia.
    intros [?|?]; done. }
  split; [|split].
  - intros H. split; [auto|by apply Hc].
  - intros H. split; [auto|by apply Hu].
  - intros L. rewrite L in Inv.
    destruct (convertCalls p) as [|c cc] eqn:Ecc.
    + destruct (currencyCalls p); [simpl in Inv; lia|]. by apply Hu.
    + by apply Hc.
Qed.

Lemma pending_request_shows_nothing_stale_witness :
  currencyCalls converted_then_currency_page ≠ []
  ∧ error (ui converted_then_currency_page) = VStr ""
  ∧ currencyResult (ui converted_then_currency_page) = "".
Proof.
  assert (Hpending : currencyCalls converted_then_currency_page ≠ [])
    by (vm_compute; discriminate).
  destruct (pending_request_shows_nothing_stale converted_then_currency_page)
    as (_ & Hcurrency & _).
  { apply run_reachable, convert_pending_page_reachable. }
  destruct (Hcurrency Hpending) as (_ & Hresult & Herror).
  split; [exact Hpending|]. split; [exact Herror|exact Hresult].
Defined.

(** ** A conversion that succeeds *)

Lemma unit_options_nonempty cat u : u ∈ unit_options cat → u ≠ "".
Proof.
  unfold unit_options. destruct (staticConfig !! cat) as [units|] eqn:Hcat;
    simpl; [|by intros ?%elem_of_nil].
  each_category Hcat; intros H;
    repeat (apply elem_of_cons in H as [->|H]); try done;
    by apply elem_of_nil in H.
Qed.

Lemma shown_with_unit_nonempty shown unit :
  String.eqb "" (shown ++ " " ++ unit) = false
  ∧ nonempty (shown ++ " " ++ unit) = true.
Proof. by destruct shown. Qed.

Lemma dispatch_convert_quiet now p i call o s1 :
  convertCalls p !! i = Some call →
  handleConvert_settled call o (ui p) = (inr tt, s1) →
  category s1 = category (ui p) →
  result s1 = result (ui p) ∨ result s1 = "" →
  dispatch now (ConvertSettled i o) p
  = (inr tt, mkPage s1 (delete i (convertCalls p)) (currencyCalls p)).
Proof.
  intros Hi Hs1 Hc Hr. rewrite dispatch_unfold. simpl. rewrite Hi.
  unfold in_ui. simpl. rewrite Hs1. simpl.
  by rewrite run_effects_quiet.
Qed.

(** The page after a conversion that succeeded, on a page the event loop
    can reach. *)
Lemma dispatch_convert_converted now p i call data number shown :
  reachable p →
  convertCalls p !! i = Some call →
  read_property data "result" = inr number →
  to_string number = inr shown →
  ∃ unit,
    toUnit call = VStr unit ∧ unit ∈ unit_options (category call)
    ∧ dispatch now (ConvertSettled i (Resolved (mkResponse true (Json data)))) p
      = (inr tt,
         mkPage
           (setHistory
              (if nonempty (value (ui p))
               then record (Entry.mk (category (ui p)) (value (ui p))
                              (fromUnit (ui p)) (toUnit (ui p))
                              (shown ++ " " ++ unit) now)
                           (history (ui p))
               else history (ui p))
              (setIsLoading false (setResult (shown ++ " " ++ unit) (ui p))))
           [] []).
Proof.
  intros Hreach Hi Hn Hs.
  destruct (reachable_selection p Hreach) as (Hsel & Hcalls & _).
  destruct (selection_valid_inv _ (proj1 (Forall_lookup _ _) Hcalls i call Hi))
    as (_ & (? & unit & _ & Hunit & _ & Hoffered) & _).
  destruct (selection_valid_inv _ Hsel)
    as (Hcat & (from & to & Hfrom & Hto & Hf & Ht) & _).
  destruct (category_options_catalog _ Hcat) as [Hcur _].
  assert (Hpending : convertCalls p ≠ []) by (by intros E; rewrite E in Hi).
  destruct (reachable_pending_clear p Hreach) as [Hclear _].
  destruct (Hclear Hpending) as [Hresult Herror].
  pose proof (reachable_one_request p Hreach) as Inv.
  unfold one_request_at_a_time in Inv.
  assert (delete i (convertCalls p) = [] ∧ currencyCalls p = []) as [Hcc Huc].
  { assert (i < length (convertCalls p))%nat by (eapply lookup_lt_Some; eauto).
    assert (length (delete i (convertCalls p)) = 0
            ∧ length (currencyCalls p) = 0)%nat as [H1 H2].
    { rewrite length_delete by eauto. destruct (isLoading (ui p)); lia. }
    by destruct (delete i (convertCalls p)), (currencyCalls p). }
  exists unit. split; [exact Hunit|]. split; [exact Hoffered|].
  destruct (shown_with_unit_nonempty shown unit) as [Hne1 Hne2].
  rewrite dispatch_unfold. simpl. rewrite Hi. unfold in_ui. simpl.
  rewrite (handleConvert_settled_eq call _ (ui p) unit) by (by rewrite Hunit).
  unfold lifecycle_settled. simpl. rewrite Hn, Hs. simpl. rewrite Hcc, Huc.
  rewrite run_effects_same_category by reflexivity. simpl.
  assert (Htf : truthy (fromUnit (ui p)) = true).
  { rewrite Hfrom. simpl.
    by rewrite (proj2 (String.eqb_neq _ _) (unit_options_nonempty _ _ Hf)). }
  assert (Htt : truthy (toUnit (ui p)) = true).
  { rewrite Hto. simpl.
    by rewrite (proj2 (String.eqb_neq _ _) (unit_options_nonempty _ _ Ht)). }
  assert (Hte : truthy (error (ui p)) = false) by (by rewrite Herror).
  rewrite Hresult, Hne1. unfold history_effect. simpl.
  rewrite Hne2, Htf, Htt, Hte, (proj2 (String.eqb_neq _ _) Hcur). simpl.
  destruct (nonempty (value (ui p))); simpl; [reflexivity|].
  unfold mret, M_ret. by destruct (ui p).
Qed.

(** X5. On a page the event loop can reach, when the request of the
    converter form is answered with a success status and a result, the page
    shows that result followed by the unit that was selected when the form
    was submitted, whatever was selected since; the loading flag is reset and
    no request is pending. The conversion enters the history exactly when
    the value field is not empty at that moment, as an entry holding the
    fields as they are then. *)
Theorem converted_shown_and_recorded
    (now : Z) (p : Page) (i : nat) (call : State)
    (data number : jsval) (shown : string)
    (Hreach : reachable p)
    (Hcall : convertCalls p !! i = Some call)
    (Hnumber : read_property data "result" = inr number)
    (Hshown : to_string number = inr shown) :
  ∃ unit,
    toUnit call = VStr unit
    ∧ dispatch now (ConvertSettled i (Resolved (mkResponse true (Json data)))) p
      = (inr tt,
         mkPage
           (setHistory
              (if nonempty (value (ui p))
               then record (Entry.mk (category (ui p)) (value (ui p))
                              (fromUnit (ui p)) (toUnit (ui p))
                              (shown ++ " " ++ unit) now)
                           (history (ui p))
               else history (ui p))
              (setIsLoading false (setResult (shown ++ " " ++ unit) (ui p))))
           [] []).
Proof.
  destruct (dispatch_convert_converted now p i call data number shown
              Hreach Hcall Hnumber Hshown) as (unit & Hunit & _ & Hd).
  by exists unit.
Qed.

(** X6. A success status with a body that has no [result] member is not
    told apart from a success: on a page the event loop can reach, the page
    shows "undefined" followed by the unit. *)
Theorem converted_without_result
    (now : Z) (p : Page) (i : nat) (call : State) (members : list (string * jsval))
    (Hreach : reachable p)
    (Hcall : convertCalls p !! i = Some call)
    (Hmissing : own_property "result" members = None) :
  ∃ unit,
    toUnit call = VStr unit
    ∧ result (ui (step now (ConvertSettled i
                     (Resolved (mkResponse true (Json (VObj members))))) p))
      = "undefined " ++ unit
    ∧ error (ui (step now (ConvertSettled i
                     (Resolved (mkResponse true (Json (VObj members))))) p))
      = VStr "".
Proof.
  destruct (dispatch_convert_converted now p i call (VObj members) VUndefined
              "undefined" Hreach Hcall) as (unit & Hunit & _ & Hd).
  { simpl. by rewrite Hmissing. }
  { reflexivity. }
  exists unit. split; [exact Hunit|]. unfold step. rewrite Hd. simpl.
  split; [reflexivity|].
  assert (Hpending : convertCalls p ≠ []) by (by intros E; rewrite E in Hcall).
  by destruct (proj1 (reachable_pending_clear p Hreach) Hpending).
Qed.

Lemma unit_changed_page_reachable : reachable unit_changed_page.
Proof. apply reach_step, convert_pending_page_reachable. Qed.

Lemma converted_shown_and_recorded_witness :
  ∃ unit,
    toUnit (ui filled_page) = VStr unit
    ∧ dispatch 6 (ConvertSettled 0 (converted "3.6")) unit_changed_page
      = (inr tt,
         mkPage
           (setHistory
              (if nonempty (value (ui unit_changed_page))
               then record (Entry.mk (category (ui unit_changed_page))
                              (value (ui unit_changed_page))
                              (fromUnit (ui unit_changed_page))
                              (toUnit (ui unit_changed_page))
                              ("3.6" ++ " " ++ unit) 6)
                           (history (ui unit_changed_page))
               else history (ui unit_changed_page))
              (setIsLoading false
                 (setResult ("3.6" ++ " " ++ unit) (ui unit_changed_page))))
           [] []).
Proof.
  apply (converted_shown_and_recorded 6 unit_changed_page 0 (ui filled_page)
           (VObj [("result", VNum "3.6")]) (VNum "3.6") "3.6"
           unit_changed_page_reachable); reflexivity.
Defined.

Lemma converted_without_result_witness :
  ∃ unit,
    toUnit (ui filled_page) = VStr unit
    ∧ result (ui (step 5 (ConvertSettled 0 empty_success) convert_pending_page))
      = "undefined " ++ unit
    ∧ error (ui (step 5 (ConvertSettled 0 empty_success) convert_pending_page))
      = VStr "".
Proof.
  apply (converted_without_result 5 convert_pending_page 0 (ui filled_page) []
           convert_pending_page_reachable); reflexivity.
Defined.

(** ** A response that cannot be used *)

(** X7. A response of the conversion endpoint whose body is the JSON
    [null], whatever its status, or whose status is a success but whose
    result cannot be printed, leaves the page exactly as a request that did
    not reach the backend: the error cell holds "Could not reach backend.". *)
Theorem unusable_response_reported_as_unreachable
    (now : Z) (p : Page) (i : nat) (call : State)
    (Hcall : convertCalls p !! i = Some call) :
  dispatch now (ConvertSettled i Rejected) p
  = (inr tt,
     mkPage (setIsLoading false
               (setError (VStr "Could not reach backend.") (ui p)))
            (delete i (convertCalls p)) (currencyCalls p))
  ∧ (∀ status_ok,
       dispatch now (ConvertSettled i
                       (Resolved (mkResponse status_ok (Json VNull)))) p
       = dispatch now (ConvertSettled i Rejected) p)
  ∧ (∀ data number e,
       read_property data "result" = inr number →
       to_string number = inl e →
       dispatch now (ConvertSettled i
                       (Resolved (mkResponse true (Json data)))) p
       = dispatch now (ConvertSettled i Rejected) p).
Proof.
  assert (Hrejected : dispatch now (ConvertSettled i Rejected) p
    = (inr tt,
       mkPage (setIsLoading false
                 (setError (VStr "Could not reach backend.") (ui p)))
              (delete i (convertCalls p)) (currencyCalls p))).
  { by apply (dispatch_convert_quiet now p i call); auto. }
  split; [exact Hrejected|]. rewrite Hrejected. split.
  - intros status_ok. apply (dispatch_convert_quiet now p i call); auto.
    by destruct status_ok.
  - intros data number e Hn Hs.
    apply (dispatch_convert_quiet now p i call); auto.
    run_handler. by rewrite Hn, Hs.
Qed.

Lemma unusable_response_reported_as_unreachable_witness :
  convertCalls convert_pending_page !! 0%nat = Some (ui filled_page)
  ∧ dispatch 5 (ConvertSettled 0 unprintable_success) convert_pending_page
    = dispatch 5 (ConvertSettled 0 Rejected) convert_pending_page.
Proof.
  split; [reflexivity|].
  apply (proj2 (proj2 (unusable_response_reported_as_unreachable 5
                         convert_pending_page 0 (ui filled_page) eq_refl))
           (VObj [("result", VObj [("toString", VNum "1")])])
           (VObj [("toString", VNum "1")]) TypeError); reflexivity.
Defined.

(** ** The currency request, settled *)

Lemma dispatch_currency_settled now p i call o :
  currencyCalls p !! i = Some call →
  dispatch now (CurrencySettled i o) p
  = (inr tt,
     mkPage (lifecycle_settled "Currency conversion failed."
               "Could not reach backend for currency."
               setCurrencyResult (currencyTo call) o (ui p))
            (convertCalls p) (delete i (currencyCalls p))).
Proof.
  intros Hi. rewrite dispatch_unfold. simpl. rewrite Hi. unfold in_ui. simpl.
  destruct (handleCurrencyConvert_settled_shape call o (ui p))
    as (s' & E & _ & K & _).
  rewrite handleCurrencyConvert_settled_eq in *. injection E as <-. simpl.
  unfold convert_cells in K. injection K as Hc _ _ _ Hr _.
  by rewrite run_effects_quiet by auto.
Qed.

(** ** The currency panel switched off and on *)

Lemma step_quiet now e p s1 :
  handle e p = (inr tt, mkPage s1 (convertCalls p) (currencyCalls p)) →
  category s1 = category (ui p) →
  result s1 = result (ui p) ∨ result s1 = "" →
  step now e p = mkPage s1 (convertCalls p) (currencyCalls p).
Proof.
  intros H Hc Hr. unfold step. rewrite dispatch_unfold, H. simpl.
  by rewrite run_effects_quiet.
Qed.

(** X9. Switching the currency panel writes the one cell [enableCurrency]:
    the outcome of an earlier currency request, the amount and the pending
    requests stay; so switching the panel and then switching it back gives
    the page back exactly. *)
Theorem currency_toggle_round_trip (now1 now2 : Z) (checked : bool) (p : Page) :
  step now1 (ToggleCurrency checked) p
  = mkPage (setEnableCurrency checked (ui p)) (convertCalls p) (currencyCalls p)
  ∧ step now2 (ToggleCurrency (enableCurrency (ui p)))
      (step now1 (ToggleCurrency checked) p)
    = p.
Proof.
  assert (Hstep : ∀ now b q,
    step now (ToggleCurrency b) q
    = mkPage (setEnableCurrency b (ui q)) (convertCalls q) (currencyCalls q)).
  { intros now b q. by apply step_quiet; auto. }
  split; [apply Hstep|]. rewrite !Hstep. by destruct p as [[] ? ?].
Qed.

(** X10. While the currency panel is switched off, the page cannot edit
    the amount, select a currency or submit the currency form: each of
    these events leaves the page as it is, and issues no request. *)
Theorem currency_panel_off_is_inert (now : Z) (e : Event) (p : Page)
    (Hoff : enableCurrency (ui p) = false)
    (Hform : needs_currency_form e = true) :
  step now e p = p.
Proof.
  apply step_refused. destruct e; try discriminate; simpl; by rewrite Hoff.
Qed.

Lemma currency_panel_off_is_inert_witness :
  enableCurrency (ui (mounted 0)) = false
  ∧ step 1 SubmitCurrency (mounted 0) = mounted 0
  ∧ step 1 (EditCurrencyValue "5") (mounted 0) = mounted 0.
Proof.
  split; [reflexivity|].
  split; apply currency_panel_off_is_inert; reflexivity.
Defined.

(** ** What was submitted *)

Lemma handle_submittable e p :
  Forall (λ call, convert_submittable call = true) (convertCalls p) →
  Forall (λ call, currency_submittable call = true) (currencyCalls p) →
  Forall (λ call, convert_submittable call = true) (convertCalls (handle e p).2)
  ∧ Forall (λ call, currency_submittable call = true)
      (currencyCalls (handle e p).2).
Proof.
  destruct p as [s cc uc]. simpl. intros Hcc Huc.
  destruct e; simpl; try (guarded_update; done).
  - unfold convert_disabled, convert_submittable.
    destruct (isLoading s) eqn:Hl, (nonempty (value s)) eqn:Hv; simpl;
      try done.
    split; [|done]. apply Forall_app. split; [done|].
    constructor; [|constructor]. by rewrite Hv, Hl.
  - unfold currency_disabled, currency_submittable.
    destruct (enableCurrency s) eqn:He, (isLoading s) eqn:Hl,
      (nonempty (currencyValue s)) eqn:Hv; simpl; try done.
    split; [done|]. apply Forall_app. split; [done|].
    constructor; [|constructor]. by rewrite He, Hv, Hl.
  - destruct (cc !! i) as [call|]; [|done]. unfold in_ui. simpl.
    destruct (handleConvert_settled call o s). simpl.
    split; [by apply Forall_delete|done].
  - destruct (uc !! i) as [call|]; [|done]. unfold in_ui. simpl.
    destruct (handleCurrencyConvert_settled call o s). simpl.
    split; [done|by apply Forall_delete].
Qed.

(** X12. On every page the event loop can reach, every pending request was
    submitted with a value that is not empty, while nothing was loading;
    a pending currency request was moreover submitted with the currency
    panel switched on. No request for an empty value is ever issued. *)
Theorem pending_requests_were_submittable (p : Page) (Hreach : reachable p) :
  (∀ call, call ∈ convertCalls p →
     value call ≠ "" ∧ isLoading call = false)
  ∧ (∀ call, call ∈ currencyCalls p →
     currencyValue call ≠ "" ∧ isLoading call = false
     ∧ enableCurrency call = true).
Proof.
  assert (H : Forall (λ call, convert_submittable call = true) (convertCalls p)
            ∧ Forall (λ call, currency_submittable call = true)
                (currencyCalls p)).
  { induction Hreach as [now|now e p _ [Hcc Huc]]; [by split; constructor|].
    destruct (step_calls now e p) as [-> ->]. by apply handle_submittable. }
  destruct H as [Hcc Huc]. rewrite Forall_forall in Hcc, Huc. split.
  - intros call Hin. specialize (Hcc call Hin).
    unfold convert_submittable, nonempty in Hcc.
    apply andb_true_iff in Hcc as [Hv Hl].
    apply negb_true_iff in Hv, Hl. by apply String.eqb_neq in Hv.
  - intros call Hin. specialize (Huc call Hin).
    unfold currency_submittable, nonempty in Huc.
    apply andb_true_iff in Huc as [[He Hv]%andb_true_iff Hl].
    apply negb_true_iff in Hv, Hl. by apply String.eqb_neq in Hv.
Qed.

Lemma pending_requests_were_submittable_witness :
  ui filled_page ∈ convertCalls convert_pending_page
  ∧ value (ui filled_page) ≠ "".
Proof.
  assert (Hin : ui filled_page ∈ convertCalls convert_pending_page)
    by (vm_compute; constructor).
  split; [exact Hin|].
  exact (proj1 (proj1 (pending_requests_were_submittable convert_pending_page
                         convert_pending_page_reachable) _ Hin)).
Defined.

(** ** More on the labels *)

Lemma capitalize_from_length s : ∀ before,
  String.length (capitalize_from before s) = String.length s.
Proof. induction s as [|c rest IH]; intros before; simpl; by rewrite ?IH. Qed.

Lemma replace_underscores_length s :
  String.length (replace_underscores s) = String.length s.
Proof. induction s as [|c rest IH]; simpl; by rewrite ?IH. Qed.

(** X13. [formatUnit] rewrites characters in place: the label is as long as
    the unit identifier. *)
Theorem formatUnit_length (u : string) :
  String.length (formatUnit u) = String.length u.
Proof.
  unfold formatUnit, capitalize_words.
  destruct (String.eqb u "") eqn:Hu.
  - apply String.eqb_eq in Hu. by rewrite Hu.
  - by rewrite capitalize_from_length, replace_underscores_length.
Qed.

Lemma capitalize_char_done (w : bool) (c : ascii) :
  let c' := if xorb w (is_word_char c) && is_lower c then toUpperCase c else c in
  negb (xorb w (is_word_char c') && is_lower c') = true
  ∧ is_word_char c' = is_word_char c.
Proof. destruct w; each_ascii c; split; reflexivity. Qed.

Lemma capitalized_from_capitalize s : ∀ before before',
  word_at before' = word_at before →
  capitalized_from before' (capitalize_from before s) = true.
Proof.
  induction s as [|c rest IH]; intros before before' Hw; simpl; [done|].
  unfold word_boundary. rewrite Hw. simpl word_at.
  destruct (capitalize_char_done (word_at before) c) as [Hdone Hword].
  rewrite Hdone. simpl. apply IH. simpl. exact Hword.
Qed.

Lemma capitalize_from_id s : ∀ before,
  capitalized_from before s = true → capitalize_from before s = s.
Proof.
  induction s as [|c rest IH]; intros before; simpl; [done|].
  intros [Hc Hr]%andb_prop. apply negb_true_iff in Hc.
  by rewrite Hc, IH.
Qed.

(** X14. A label [formatUnit] returns has no underscore and no word that
    starts with a lower-case letter; and [formatUnit] returns its argument
    unchanged exactly when the argument is such a label already (a currency
    code, for one). *)
Theorem formatUnit_fixes_formatted (u : string) :
  is_formatted (formatUnit u) = true
  ∧ (formatUnit u = u ↔ is_formatted u = true).
Proof.
  assert (Hdone : is_formatted (formatUnit u) = true).
  { unfold formatUnit, is_formatted, capitalize_words.
    destruct (String.eqb u ""); [reflexivity|].
    rewrite capitalize_from_clean by apply replace_underscores_clean.
    by rewrite capitalized_from_capitalize. }
  split; [exact Hdone|]. split.
  - intros H. by rewrite <- H.
  - unfold is_formatted. intros [Hclean Hcap]%andb_prop.
    unfold formatUnit, capitalize_words.
    destruct (String.eqb u "") eqn:Hu.
    + apply String.eqb_eq in Hu. by rewrite Hu.
    + rewrite replace_underscores_id by done. by apply capitalize_from_id.
Qed.

Lemma formatUnit_fixes_formatted_witness :
  is_formatted "USD" = true ∧ formatUnit "USD" = "USD".
Proof.
  split; [reflexivity|].
  apply (proj2 (proj2 (formatUnit_fixes_formatted "USD"))). reflexivity.
Defined.

(** ** The keys of the history list *)

Lemma append_last_inj a : ∀ b c1 c2,
  a +:+ String c1 "" = b +:+ String c2 "" → a = b ∧ c1 = c2.
Proof.
  induction a as [|x a IH]; intros [|y b] c1 c2; simpl; intros H.
  - by injection H as ->.
  - injection H as _ H. by destruct b.
  - injection H as _ H. by destruct a.
  - injection H as -> H. by destruct (IH b c1 c2 H) as [-> ->].
Qed.

Lemma pretty_index_one_digit (idx : nat) :
  (idx < 10)%nat → ∃ c, pretty idx = String c "".
Proof.
  intros H.
  assert (idx = 0 ∨ idx = 1 ∨ idx = 2 ∨ idx = 3 ∨ idx = 4 ∨ idx = 5
          ∨ idx = 6 ∨ idx = 7 ∨ idx = 8 ∨ idx = 9)%nat
    as [->|[->|[->|[->|[->|[->|[->|[->|[->| ->]]]]]]]]] by lia;
    by eexists.
Qed.

Lemma history_keys_NoDup (hist : list Entry.t) :
  (length hist ≤ 10)%nat → NoDup (history_keys hist).
Proof.
  intros Hlen. apply NoDup_alt. intros i j key Hi Hj.
  unfold history_keys in Hi, Hj. rewrite list_lookup_imap in Hi, Hj.
  destruct (hist !! i) as [a|] eqn:Ha; [|done].
  destruct (hist !! j) as [b|] eqn:Hb; [|done].
  apply lookup_lt_Some in Ha, Hb. simpl in Hi, Hj.
  destruct (pretty_index_one_digit i) as [ci Hci]; [lia|].
  destruct (pretty_index_one_digit j) as [cj Hcj]; [lia|].
  rewrite Hci in Hi. rewrite Hcj in Hj.
  injection Hi as <-. injection Hj as Hj.
  apply append_last_inj in Hj as [_ Hc].
  apply (inj pretty). by rewrite Hci, Hcj, Hc.
Qed.

(** X15. The items of the history list never share a key: the key ends in
    the index, and on every page the event loop can reach the list has at
    most ten items, so the index is one digit. The bound matters: with
    twelve items two keys can be the same. *)
Theorem history_keys_distinct (p : Page) (Hreach : reachable p) :
  NoDup (history_keys (history (ui p)))
  ∧ ¬ NoDup (history_keys colliding_history).
Proof.
  split.
  - by apply history_keys_NoDup, reachable_history_length.
  - intros H.
    assert (H1 : history_keys colliding_history !! 1%nat = Some "111")
      by (vm_compute; reflexivity).
    assert (H11 : history_keys colliding_history !! 11%nat = Some "111")
      by (vm_compute; reflexivity).
    by pose proof (proj1 (NoDup_alt _) H _ _ _ H1 H11).
Qed.

Lemma history_keys_distinct_witness :
  NoDup (history_keys (history (ui converted_then_currency_page))).
Proof.
  apply (history_keys_distinct converted_then_currency_page).
  apply run_reachable, convert_pending_page_reachable.
Defined.

(** ** What the history holds *)

Lemma reachable_history_entries p :
  reachable p → Forall (λ entry, entry_valid entry = true) (history (ui p)).
Proof.
  induction 1 as [now|now e p Hp IH]; [rewrite mounted_eq; constructor|].
  destruct (step_history now e p)
    as [->|(i & call & [okf body] & data & number & shown & unit
            & -> & Hi & Hok & Hd & Hn & Hs & _)]; [exact IH|].
  simpl in Hok, Hd. subst okf body.
  destruct (dispatch_convert_converted now p i call data number shown
              Hp Hi Hn Hs) as (unit' & _ & _ & Hpage).
  unfold step. rewrite Hpage. simpl.
  destruct (nonempty (value (ui p))) eqn:Hv; [|exact IH].
  unfold record. constructor; [|by apply Forall_take].
  destruct (reachable_selection p Hp) as [Hsel _].
  apply selection_valid_parts in Hsel as (Hc & Hf & Ht & _).
  unfold entry_valid. simpl.
  by rewrite Hv, (proj2 (shown_with_unit_nonempty shown unit')), Hc, Hf, Ht.
Qed.

(** X16. Every entry of a history the event loop has built holds a value
    and a result that are not empty, a category of the catalog other than
    "Currency", and as its two units two units of that category. *)
Theorem history_entries_well_formed (p : Page) (entry : Entry.t)
    (Hreach : reachable p) (Hin : entry ∈ history (ui p)) :
  Entry.value entry ≠ "" ∧ Entry.result entry ≠ ""
  ∧ Entry.category entry ∈ category_options
  ∧ Entry.category entry ≠ "Currency"
  ∧ ∃ from to,
      Entry.fromUnit entry = VStr from ∧ Entry.toUnit entry = VStr to
      ∧ from ∈ unit_options (Entry.category entry)
      ∧ to ∈ unit_options (Entry.category entry).
Proof.
  pose proof (reachable_history_entries p Hreach) as H.
  rewrite Forall_forall in H. specialize (H entry Hin).
  unfold entry_valid, nonempty, offered in H.
  repeat (apply andb_true_iff in H as [H ?]).
  destruct (Entry.fromUnit entry) as [| | | |from| |]; try discriminate.
  destruct (Entry.toUnit entry) as [| | | |to| |]; try discriminate.
  repeat match goal with
         | H : negb _ = true |- _ => apply negb_true_iff, String.eqb_neq in H
         | H : bool_decide _ = true |- _ => apply bool_decide_eq_true in H
         end.
  repeat (split; [done|]).
  split; [by eapply category_options_catalog|]. by exists from, to.
Qed.

Lemma history_entries_well_formed_witness :
  sample_recorded ∈ history (ui converted_then_currency_page)
  ∧ Entry.value sample_recorded ≠ ""
  ∧ Entry.category sample_recorded ≠ "Currency".
Proof.
  assert (Hin : sample_recorded ∈ history (ui converted_then_currency_page))
    by (vm_compute; constructor).
  destruct (history_entries_well_formed converted_then_currency_page
              sample_recorded) as (Hvalue & _ & _ & Hcategory & _).
  { apply run_reachable, convert_pending_page_reachable. }
  { exact Hin. }
  split; [exact Hin|]. split; [exact Hvalue|exact Hcategory].
Defined.

(** * The turn with its renders *)

(** ** When the render throws *)

Lemma dispatch_total now e p : (dispatch now e p).1 = inr tt.
Proof.
  destruct (handle_category e p) as [Hc|(cat & -> & Hcat & Hp)].
  - by destruct (step_ui_same_category now e p Hc) as (_ & _ & ->).
  - destruct (decide (category (ui p) = cat)) as [Heq|Hne].
    + assert (Hc : category (ui (handle (SelectCategory cat) p).2)
                   = category (ui p)) by (by rewrite Hp).
      by destruct (step_ui_same_category now _ p Hc) as (_ & _ & ->).
    + by destruct (step_ui_new_category now cat p Hcat Hne)
        as (? & ? & ? & _ & _ & _ & ->).
Qed.

Lemma entry_valid_prints entry :
  entry_valid entry = true →
  prints (formatUnit_of (Entry.fromUnit entry))
  && prints (formatUnit_of (Entry.toUnit entry)) = true.
Proof.
  unfold entry_valid, offered. intros H.
  repeat (apply andb_true_iff in H as [H ?]).
  destruct (Entry.fromUnit entry) as [| | | |from| |]; try discriminate.
  destruct (Entry.toUnit entry) as [| | | |to| |]; try discriminate.
  unfold formatUnit_of.
  by destruct (negb (truthy (VStr from))), (negb (truthy (VStr to))).
Qed.

(** With a category of the catalog, units that are strings and a history
    of well-formed entries, the render can only fail on the error
    message. *)
Lemma render_ok s :
  is_Some (staticConfig !! category s) →
  Forall (λ entry, entry_valid entry = true) (history s) →
  units_are_strings s = true →
  render s = if valid_child (error s) then inr tt else inl InvalidChild.
Proof.
  intros [units Hc] Hh Hu. unfold render. rewrite Hc.
  assert (Hall : forallb (λ item,
      prints (formatUnit_of (Entry.fromUnit item))
      && prints (formatUnit_of (Entry.toUnit item))) (history s) = true).
  { apply forallb_forall. intros item Hin. apply entry_valid_prints.
    rewrite Forall_forall in Hh. by apply Hh, list_elem_of_In. }
  rewrite Hall. simpl.
  destruct (valid_child (error s)); simpl; [|reflexivity].
  unfold units_are_strings in Hu.
  destruct (fromUnit s) as [| | | |from| |]; try discriminate.
  by destruct (toUnit s) as [| | | |to| |].
Qed.

Lemma handle_units_are_strings e p :
  units_are_strings (ui p) = true →
  units_are_strings (ui (handle e p).2) = true.
Proof.
  destruct p as [s cc uc]. simpl. intros Hu.
  destruct e; simpl; try (guarded_update; exact Hu).
  - guarded_update; [|exact Hu]. unfold units_are_strings in *. simpl.
    by destruct (fromUnit s).
  - guarded_update; [|exact Hu]. unfold units_are_strings in *. simpl.
    by destruct (fromUnit s), (toUnit s).
  - destruct (convert_disabled s); exact Hu.
  - destruct (negb (enableCurrency s) || currency_disabled s); exact Hu.
  - destruct (cc !! i) as [call|]; [|exact Hu]. unfold in_ui. simpl.
    destruct (handleConvert_settled_shape call o s) as (s' & -> & _ & _ & K).
    simpl. unfold units_are_strings in *. injection K as _ _ -> -> _. exact Hu.
  - destruct (uc !! i) as [call|]; [|exact Hu]. unfold in_ui. simpl.
    destruct (handleCurrencyConvert_settled_shape call o s)
      as (s' & -> & _ & K & _).
    simpl. unfold units_are_strings, convert_cells in *.
    injection K as _ _ -> -> _ _. exact Hu.
Qed.

Lemma reachable_units_are_strings p :
  reachable p → units_are_strings (ui p) = true.
Proof.
  intros Hp. destruct (reachable_selection p Hp) as [Hs _].
  destruct (selection_valid_inv _ Hs) as (_ & (from & to & Hf & Ht & _) & _).
  unfold units_are_strings. by rewrite Hf, Ht.
Qed.

Lemma reachable_category_known p :
  reachable p → is_Some (staticConfig !! category (ui p)).
Proof.
  intros Hp. destruct (reachable_selection p Hp) as [Hs _].
  destruct (selection_valid_inv _ Hs) as (Hc & _).
  destruct (category_options_catalog _ Hc) as (_ & ? & ? & ? & -> & _).
  by eexists.
Qed.

Lemma render_reachable p :
  reachable p →
  render (ui p)
  = if valid_child (error (ui p)) then inr tt else inl InvalidChild.
Proof.
  intros Hp. apply render_ok.
  - by apply reachable_category_known.
  - by apply reachable_history_entries.
  - by apply reachable_units_are_strings.
Qed.

(** The render between the handler and the effects. *)
Lemma render_handled e p :
  reachable p →
  render (ui (handle e p).2)
  = if valid_child (error (ui (handle e p).2)) then inr tt
    else inl InvalidChild.
Proof.
  intros Hp. apply render_ok.
  - destruct (handle_category e p) as [->|(cat & _ & Hcat & ->)].
    + by apply reachable_category_known.
    + simpl. destruct (category_options_catalog _ Hcat)
        as (_ & ? & ? & ? & -> & _). by eexists.
  - destruct (handle_cases e p) as [-> _]. by apply reachable_history_entries.
  - by apply handle_units_are_strings, reachable_units_are_strings.
Qed.

Lemma step_error now e p :
  error (ui (step now e p)) = error (ui (handle e p).2).
Proof.
  pose proof (step_kept now e p) as K.
  unfold kept_by_effects, shared_cells in K. by injection K.
Qed.

(** On a page the event loop can reach, a turn ends with the page of
    [step], unless the error message it leaves is no valid child. *)
Lemma turn_cases now e p :
  reachable p →
  turn now e p
  = if valid_child (error (ui (step now e p))) then Live (step now e p)
    else Unmounted InvalidChild.
Proof.
  intros Hp. unfold turn. simpl.
  rewrite (render_handled e p Hp), <- (step_error now e p).
  destruct (valid_child (error (ui (step now e p)))) eqn:Hv; [|reflexivity].
  pose proof (dispatch_total now e p) as Ht.
  pose proof (render_reachable _ (reach_step now e p Hp)) as Hr.
  rewrite Hv in Hr. unfold step in *. rewrite dispatch_unfold in *.
  simpl in *. rewrite handle_total in Ht.
  destruct (run_effects now (ui p) (ui (handle e p).2) (ui (handle e p).2))
    as [[x|[]] s2]; simpl in *; [discriminate|].
  by rewrite Hr.
Qed.

(** What a handler leaves in the error cell: what was there, a message of
    its own, or the truthy detail of a failure response. *)
Lemma handle_error_cases e p :
  error (ui (handle e p).2) = error (ui p)
  ∨ (∃ message, error (ui (handle e p).2) = VStr message)
  ∨ ∃ i data detail,
      (e = ConvertSettled i (Resolved (mkResponse false (Json data)))
       ∨ e = CurrencySettled i (Resolved (mkResponse false (Json data))))
      ∧ read_property data "detail" = inr detail
      ∧ truthy detail = true
      ∧ error (ui (handle e p).2) = detail.
Proof.
  destruct p as [s cc uc].
  destruct e; simpl; try (left; guarded_update; done).
  - destruct (convert_disabled s); simpl; [by left|]. right. left. by eexists.
  - destruct (negb (enableCurrency s) || currency_disabled s); simpl;
      [by left|]. right. left. by eexists.
  - destruct (cc !! i) as [call|]; [|by left]. unfold in_ui. simpl.
    destruct o as [|[[] [|data]]]; run_handler;
      try (right; left; by eexists).
    + destruct (read_property data "result") as [?|number];
        [right; left; by eexists|].
      destruct (to_string number); [right; left; by eexists|].
      destruct (to_string (toUnit call)); [right; left; by eexists|by left].
    + destruct (read_property data "detail") as [?|detail] eqn:Hd;
        [right; left; by eexists|].
      simpl. unfold js_or. destruct (truthy detail) eqn:Ht;
        [|right; left; by eexists].
      right. right. exists i, data, detail. auto.
  - destruct (uc !! i) as [call|]; [|by left]. unfold in_ui. simpl.
    destruct o as [|[[] [|data]]]; run_handler;
      try (right; left; by eexists).
    + destruct (read_property data "result") as [?|number];
        [right; left; by eexists|].
      destruct (to_string number); [right; left; by eexists|by left].
    + destruct (read_property data "detail") as [?|detail] eqn:Hd;
        [right; left; by eexists|].
      simpl. unfold js_or. destruct (truthy detail) eqn:Ht;
        [|right; left; by eexists].
      right. right. exists i, data, detail. auto.
Qed.

(** X1. No handler and no effect lets an exception escape, whatever the
    event and the page. On a page the event loop can reach and that shows
    its error message, a turn ends with the page still mounted and showing
    its error message, with one exception: the request of either form is
    answered with a failure status and a body whose [detail] is truthy and
    no valid child (an object, or an array that holds one); the handler
    stores it, and the render of the error message unmounts the
    component. *)
Theorem unmounted_only_by_invalid_detail (now : Z) (e : Event) (p : Page)
    (Hreach : reachable p)
    (Hshown : valid_child (error (ui p)) = true) :
  (dispatch now e p).1 = inr tt
  ∧ (turn now e p = Live (step now e p)
     ∧ valid_child (error (ui (step now e p))) = true
     ∨ turn now e p = Unmounted InvalidChild
       ∧ ∃ i data detail,
           (e = ConvertSettled i (Resolved (mkResponse false (Json data)))
            ∨ e = CurrencySettled i (Resolved (mkResponse false (Json data))))
           ∧ read_property data "detail" = inr detail
           ∧ truthy detail = true
           ∧ valid_child detail = false).
Proof.
  split; [apply dispatch_total|].
  rewrite (turn_cases now e p Hreach), step_error.
  destruct (handle_error_cases e p)
    as [->|[[message ->]|(i & data & detail & He & Hd & Ht & ->)]].
  - rewrite Hshown. by left.
  - by left.
  - destruct (valid_child detail) eqn:Hv; [by left|].
    right. split; [reflexivity|]. by exists i, data, detail.
Qed.

Lemma unmounted_only_by_invalid_detail_witness :
  valid_child (error (ui convert_pending_page)) = true
  ∧ turn 5 (ConvertSettled 0 bad_unit) convert_pending_page
    = Live convert_failed_page
  ∧ turn 5 (ConvertSettled 0 invalid_input) convert_pending_page
    = Unmounted InvalidChild.
Proof.
  split; [reflexivity|].
  destruct (unmounted_only_by_invalid_detail 5 (ConvertSettled 0 bad_unit)
              convert_pending_page convert_pending_page_reachable eq_refl)
    as [_ [[Hlive _]|[Hdead _]]];
    destruct (unmounted_only_by_invalid_detail 5
                (ConvertSettled 0 invalid_input)
                convert_pending_page convert_pending_page_reachable eq_refl)
    as [_ [[Hlive' Hvalid]|[Hdead' _]]].
  - vm_compute in Hvalid. discriminate.
  - split; [exact Hlive|exact Hdead'].
  - vm_compute in Hvalid. discriminate.
  - exfalso. revert Hdead. rewrite turn_cases
      by apply convert_pending_page_reachable.
    vm_compute. discriminate.
Defined.

(** ** How a conversion fails, on the page *)

Lemma turn_live now e p :
  reachable p → valid_child (error (ui (step now e p))) = true →
  turn now e p = Live (step now e p).
Proof. intros Hp Hv. by rewrite turn_cases, Hv. Qed.

Lemma valid_child_or detail fallback :
  valid_child detail = true →
  valid_child (if truthy detail then detail else VStr fallback) = true.
Proof. by destruct (truthy detail). Qed.

(** C3, as the code has it. On a page the event loop can reach, when the
    request of the converter form is answered with a status outside 200-299
    and a JSON body other than [null] whose [detail] is a value the page can
    show (the string of the endpoint's contract, or no detail at all), the
    page shows that detail when it is truthy, else exactly "Conversion
    failed."; when [fetch] is rejected it shows exactly "Could not reach
    backend."; either way [isLoading] is reset and the page stays mounted.
    Whatever the answer, no exception leaves the handler or the effect that
    follows it. *)
Theorem convert_failure_messages (now : Z) (p : Page) (i : nat) (call : State)
    (Hreach : reachable p)
    (Hcall : convertCalls p !! i = Some call) :
  (∀ data detail,
     read_property data "detail" = inr detail →
     valid_child detail = true →
     turn now (ConvertSettled i (Resolved (mkResponse false (Json data)))) p
     = Live
         (mkPage (setIsLoading false
                    (setResult ""
                       (setError (if truthy detail then detail
                                  else VStr "Conversion failed.") (ui p))))
                 (delete i (convertCalls p)) (currencyCalls p)))
  ∧ turn now (ConvertSettled i Rejected) p
    = Live
        (mkPage (setIsLoading false
                   (setError (VStr "Could not reach backend.") (ui p)))
                (delete i (convertCalls p)) (currencyCalls p))
  ∧ (∀ o, (handle (ConvertSettled i o) p).1 = inr tt
          ∧ (dispatch now (ConvertSettled i o) p).1 = inr tt).
Proof.
  split; [|split].
  - intros data detail Hd Hv.
    assert (Hstep : step now
        (ConvertSettled i (Resolved (mkResponse false (Json data)))) p
      = mkPage (setIsLoading false
                  (setResult ""
                     (setError (if truthy detail then detail
                                else VStr "Conversion failed.") (ui p))))
               (delete i (convertCalls p)) (currencyCalls p)).
    { unfold step. rewrite (dispatch_convert_failed now p i call) by done.
      unfold lifecycle_settled. simpl. by rewrite Hd. }
    rewrite <- Hstep. apply turn_live; [done|].
    rewrite Hstep. simpl. by apply valid_child_or.
  - assert (Hstep : step now (ConvertSettled i Rejected) p
      = mkPage (setIsLoading false
                  (setError (VStr "Could not reach backend.") (ui p)))
               (delete i (convertCalls p)) (currencyCalls p)).
    { unfold step. by rewrite (dispatch_convert_failed now p i call). }
    rewrite <- Hstep. apply turn_live; [done|]. by rewrite Hstep.
  - intros o. split; [apply handle_total|apply dispatch_total].
Qed.

Lemma convert_failure_messages_witness :
  convertCalls convert_pending_page !! 0%nat = Some (ui filled_page)
  ∧ turn 5 (ConvertSettled 0 bad_unit) convert_pending_page
    = Live
        (mkPage (setIsLoading false
                   (setResult ""
                      (setError (VStr "bad unit") (ui convert_pending_page))))
                [] [])
  ∧ turn 5 (ConvertSettled 0 no_detail) convert_pending_page
    = Live
        (mkPage (setIsLoading false
                   (setResult ""
                      (setError (VStr "Conversion failed.")
                         (ui convert_pending_page))))
                [] []).
Proof.
  destruct (convert_failure_messages 5 convert_pending_page 0 (ui filled_page)
              convert_pending_page_reachable eq_refl) as (Hservice & _ & _).
  split; [reflexivity|]. unfold bad_unit, no_detail.
  rewrite (Hservice (VObj [("detail", VStr "bad unit")]) (VStr "bad unit")
             eq_refl eq_refl).
  rewrite (Hservice (VObj []) VUndefined eq_refl eq_refl).
  split; reflexivity.
Defined.

(** ** How the currency request ends, on the page *)

(** X8. How the request of the currency form ends, on a page the event
    loop can reach. A success status with a result shows the result
    followed by the currency that was selected when the form was submitted;
    a failure status with a JSON body other than [null] whose [detail] is a
    value the page can show shows that detail when it is truthy, else
    "Currency conversion failed."; a request that is rejected, or answered
    with a body that is not JSON, shows "Could not reach backend for
    currency.". Each time the page stays mounted, the loading flag is
    reset, the request is no longer pending, and neither the cells of the
    converter form nor the history change. *)
Theorem currency_request_outcomes
    (now : Z) (p : Page) (i : nat) (call : State)
    (Hreach : reachable p)
    (Hcall : currencyCalls p !! i = Some call) :
  (∀ data number shown,
     read_property data "result" = inr number →
     to_string number = inr shown →
     turn now (CurrencySettled i (Resolved (mkResponse true (Json data)))) p
     = Live
         (mkPage (setIsLoading false
                    (setCurrencyResult (shown ++ " " ++ currencyTo call)
                       (ui p)))
                 (convertCalls p) (delete i (currencyCalls p))))
  ∧ (∀ data detail,
       read_property data "detail" = inr detail →
       valid_child detail = true →
       turn now (CurrencySettled i
                   (Resolved (mkResponse false (Json data)))) p
       = Live
           (mkPage (setIsLoading false
                      (setCurrencyResult ""
                         (setError (if truthy detail then detail
                                    else VStr "Currency conversion failed.")
                            (ui p))))
                   (convertCalls p) (delete i (currencyCalls p))))
  ∧ (∀ o, o = Rejected
          ∨ (∃ status_ok, o = Resolved (mkResponse status_ok NotJson)) →
       turn now (CurrencySettled i o) p
       = Live
           (mkPage (setIsLoading false
                      (setError (VStr "Could not reach backend for currency.")
                         (ui p)))
                   (convertCalls p) (delete i (currencyCalls p)))).
Proof.
  assert (Hstep : ∀ o, step now (CurrencySettled i o) p
    = mkPage (lifecycle_settled "Currency conversion failed."
                "Could not reach backend for currency."
                setCurrencyResult (currencyTo call) o (ui p))
             (convertCalls p) (delete i (currencyCalls p))).
  { intros o. unfold step. by rewrite (dispatch_currency_settled now p i call). }
  assert (Hpending : currencyCalls p ≠ []) by (by intros E; rewrite E in Hcall).
  destruct (proj2 (reachable_pending_clear p Hreach) Hpending) as [_ Herror].
  split; [|split].
  - intros data number shown Hn Hs.
    rewrite turn_live; [|done|]; rewrite Hstep;
      unfold lifecycle_settled; simpl; rewrite Hn, Hs; [done|].
    simpl. by rewrite Herror.
  - intros data detail Hd Hv.
    rewrite turn_live; [|done|]; rewrite Hstep;
      unfold lifecycle_settled; simpl; rewrite Hd; [done|].
    simpl. by apply valid_child_or.
  - intros o [->|[status_ok ->]]; (rewrite turn_live; [|done|]);
      by rewrite Hstep.
Qed.

Lemma currency_pending_page_reachable : reachable currency_pending_page.
Proof. apply reach_step, run_reachable, reach_mounted. Qed.

Lemma currency_request_outcomes_witness :
  currencyCalls currency_pending_page !! 0%nat = Some (ui filled_page)
  ∧ turn 5 (CurrencySettled 0 (converted "4.6")) currency_pending_page
    = Live
        (mkPage (setIsLoading false
                   (setCurrencyResult "4.6 EUR" (ui currency_pending_page)))
                [] []).
Proof.
  split; [reflexivity|]. unfold converted.
  rewrite (proj1 (currency_request_outcomes 5 currency_pending_page 0
                    (ui filled_page) currency_pending_page_reachable eq_refl)
             (VObj [("result", VNum "4.6")]) (VNum "4.6") "4.6" eq_refl eq_refl).
  reflexivity.
Defined.

(** ** The two workflows and the cells they share *)

Lemma lifecycle_failed_shared fallback transport store unit o s :
  failed o = true →
  (∀ x t, shared_cells (store x t) = shared_cells t) →
  shared_cells (lifecycle_settled fallback transport store unit o s)
  = (failure_message fallback transport o, false).
Proof.
  intros Hf Hstore. destruct o as [|[[] [|data]]]; try discriminate;
    unfold lifecycle_settled, failure_message; simpl; try reflexivity.
  destruct (read_property data "detail") as [?|detail]; [reflexivity|].
  pose proof (Hstore "" (setError (js_or detail (VStr fallback)) s)) as H.
  unfold shared_cells in *. simpl in *. by injection H as ->.
Qed.

(** C7, as the code has it. An event of one workflow leaves the cells of
    the other workflow (its inputs, its result, and for the converter form
    the history) and its pending requests unchanged. The error cell and the
    loading flag belong to neither. A submit of either form either changes
    nothing or empties the error cell and sets the loading flag. On a page
    the event loop can reach, a request of either form that fails (it is
    rejected, or answered with a body that is not JSON or with a status
    outside 200-299) puts the message of its own handler in the error cell,
    whatever was there, and resets the loading flag; the page stays mounted
    and shows the message, provided the message is a value it can show. *)
Theorem workflows_frame (now : Z) (e : Event) (p : Page) :
  (is_currency_event e = true →
     convert_cells (ui (step now e p)) = convert_cells (ui p)
     ∧ convertCalls (step now e p) = convertCalls p)
  ∧ (is_convert_event e = true →
     currency_cells (ui (step now e p)) = currency_cells (ui p)
     ∧ currencyCalls (step now e p) = currencyCalls p)
  ∧ (e = SubmitConvert ∨ e = SubmitCurrency →
     step now e p = p
     ∨ shared_cells (ui (step now e p)) = (VStr "", true))
  ∧ (reachable p → ∀ i call o, failed o = true →
     (e = ConvertSettled i o → convertCalls p !! i = Some call →
      valid_child
        (failure_message "Conversion failed." "Could not reach backend." o)
      = true →
      turn now e p = Live (step now e p)
      ∧ shared_cells (ui (step now e p))
        = (failure_message "Conversion failed." "Could not reach backend." o,
           false))
     ∧ (e = CurrencySettled i o → currencyCalls p !! i = Some call →
        valid_child
          (failure_message "Currency conversion failed."
             "Could not reach backend for currency." o)
        = true →
        turn now e p = Live (step now e p)
        ∧ shared_cells (ui (step now e p))
          = (failure_message "Currency conversion failed."
               "Could not reach backend for currency." o,
             false))).
Proof.
  destruct (handle_frame e p) as [Hcur Hconv].
  destruct (step_calls now e p) as [Hcc Huc].
  split; [|split; [|split]].
  - intros He. destruct (Hcur He) as [Hcells Hcalls].
    rewrite Hcc. split; [|exact Hcalls].
    unfold step. rewrite dispatch_unfold. simpl.
    pose proof Hcells as Hsame. injection Hsame as Hc _ _ _ Hr _.
    by rewrite run_effects_quiet by auto.
  - intros He. destruct (Hconv He) as [Hcells Hcalls].
    rewrite Huc. split; [|exact Hcalls].
    rewrite <- Hcells. pose proof (step_kept now e p) as K.
    unfold kept_by_effects in K. congruence.
  - pose proof (step_kept now e p) as K. unfold kept_by_effects in K.
    assert (Hshared : shared_cells (ui (step now e p))
                      = shared_cells (ui (handle e p).2)) by congruence.
    rewrite Hshared. clear K Hshared. destruct p as [s cc uc].
    intros [->| ->]; simpl.
    + destruct (convert_disabled s) eqn:Hd; [|by right].
      left. apply step_refused. simpl. by rewrite Hd.
    + destruct (negb (enableCurrency s) || currency_disabled s) eqn:Hd;
        [|by right].
      left. apply step_refused. simpl. by rewrite Hd.
  - intros Hreach i call o Hf. split.
    + intros -> Hi Hv.
      assert (Hstep : shared_cells
          (ui (step now (ConvertSettled i o) p))
        = (failure_message "Conversion failed." "Could not reach backend." o,
           false)).
      { unfold step. rewrite (dispatch_convert_failed now p i call) by done.
        simpl. by apply lifecycle_failed_shared. }
      split; [|exact Hstep]. apply turn_live; [done|].
      unfold shared_cells in Hstep. by injection Hstep as -> _.
    + intros -> Hi Hv.
      assert (Hstep : shared_cells
          (ui (step now (CurrencySettled i o) p))
        = (failure_message "Currency conversion failed."
             "Could not reach backend for currency." o,
           false)).
      { unfold step. rewrite (dispatch_currency_settled now p i call) by done.
        simpl. by apply lifecycle_failed_shared. }
      split; [|exact Hstep]. apply turn_live; [done|].
      unfold shared_cells in Hstep. by injection Hstep as -> _.
Qed.

Lemma workflows_frame_witness :
  is_currency_event SubmitCurrency = true
  ∧ result (ui (step 6 SubmitCurrency convert_failed_page))
    = result (ui convert_failed_page)
  ∧ convertCalls (step 6 SubmitCurrency convert_failed_page)
    = convertCalls convert_failed_page
  ∧ (step 6 SubmitCurrency convert_failed_page = convert_failed_page
     ∨ shared_cells (ui (step 6 SubmitCurrency convert_failed_page))
       = (VStr "", true))
  ∧ shared_cells (ui (step 5 (CurrencySettled 0 no_detail)
                        currency_pending_page))
    = (VStr "Currency conversion failed.", false).
Proof.
  destruct (workflows_frame 6 SubmitCurrency convert_failed_page)
    as (Hframe & _ & Hsubmit & _).
  destruct (Hframe eq_refl) as [Hcells Hcalls].
  destruct (workflows_frame 5 (CurrencySettled 0 no_detail)
              currency_pending_page) as (_ & _ & _ & Hfailure).
  destruct (Hfailure currency_pending_page_reachable 0%nat (ui filled_page)
              no_detail eq_refl) as [_ Hcurrency].
  destruct (Hcurrency eq_refl eq_refl eq_refl) as [_ Hshared].
  split; [reflexivity|].
  split; [exact (f_equal (λ cells, cells.1.2) Hcells)|].
  split; [exact Hcalls|]. split; [apply Hsubmit; by right|exact Hshared].
Defined.
